(** * A shallow embedding of the sitemap crawler of [main.py]

    The crawler walks a sitemap index, the monthly sitemaps it lists and the
    article pages those list, extracts an [Article] from every page and
    writes one JSON file per month.

    Layout of this file:
    - [Py]: the Python builtins the program calls ([str.split],
      [str.replace], [int], negative indexing, [dict.get]) and the
      exceptions it can meet;
    - [Bs4]: the document tree BeautifulSoup hands to the program, with
      [find_all], [find], [.text] and [.string];
    - the effect model: an event trace, the environment the program talks
      to (interpreter, network, parser, JSON decoder, file system),
      tenacity's [retry];
    - [SitemapParser], [ArticleScraper], [FileUtility] and [main], one
      definition per source function;
    - [Demo] and [Scenario]: concrete worlds to run the program in;
    - a monitor that reads the trace of a run, and the claims in the words
      of the specification;
    - the theorems: the functions step by step, the loops under the
      monitor, then one part per claim. *)

From Stdlib Require Import ZArith List Lia Bool Ascii String DecimalString.
From Stdlib Require Import Floats.SpecFloat.
From stdpp Require Import base strings gmap.

Set Warnings "-register-all".
Local Open Scope Z_scope.

(** ** Python values, exceptions and builtins *)

Module Py.

(** What [json.loads] can return. *)
Inductive pyval : Type :=
  | PyNone
  | PyBool (b : bool)
  | PyInt (z : Z)
  | PyFloat (f : spec_float)
  | PyStr (s : string)
  | PyList (l : list pyval)
  | PyDict (d : gmap string pyval).

(** The exception classes that occur.  [ConnectionError], [Timeout] and
    [HTTPError] are the subclasses of [requests.RequestException]; every
    constructor is a subclass of [Exception]. *)
Inductive exn : Type :=
  | ConnectionError
  | Timeout
  | HTTPError (status : Z)
  | ValueError
  | UnicodeEncodeError
  | TypeError
  | AttributeError
  | IndexError
  | OverflowError
  | OSError
  | RetryError.

Definition is_RequestException (e : exn) : bool :=
  match e with
  | ConnectionError | Timeout | HTTPError _ => true
  | _ => false
  end.

(** A computation that returns or raises. *)
Inductive result (A : Type) : Type :=
  | Ok (a : A)
  | Raise (e : exn).
Arguments Ok {A} a.
Arguments Raise {A} e.

#[global] Instance result_ret : MRet result := fun A a => Ok a.
#[global] Instance result_bind : MBind result := fun A B k r =>
  match r with
  | Ok a => k a
  | Raise e => Raise e
  end.

(** [s.split(sep)] for a one-character separator: the pieces between the
    separators, empty pieces included; never the empty list. *)
Fixpoint str_split (sep : ascii) (s : string) : list string :=
  match s with
  | EmptyString => [EmptyString]
  | String c rest =>
      if Ascii.eqb c sep then EmptyString :: str_split sep rest
      else match str_split sep rest with
           | [] => [String c EmptyString]
           | w :: ws => String c w :: ws
           end
  end.

(** [s.replace(old, new)] for a non-empty [old]: every occurrence, found
    left to right without overlap, is replaced.  [skip] counts the
    characters of a match that are still to be dropped. *)
Fixpoint replace_from (old new : string) (skip : nat) (s : string) : string :=
  match s with
  | EmptyString => EmptyString
  | String c rest =>
      match skip with
      | S k => replace_from old new k rest
      | O =>
          if String.prefix old (String c rest)
          then new +:+ replace_from old new (Nat.pred (String.length old)) rest
          else String c (replace_from old new O rest)
      end
  end.

Definition str_replace (old new s : string) : string :=
  replace_from old new O s.

(** [l[i]] with Python's negative indices. *)
Definition py_index {A} (l : list A) (i : Z) : result A :=
  let n := Z.of_nat (List.length l) in
  let j := if i <? 0 then i + n else i in
  if (j <? 0) || (n <=? j) then Raise IndexError
  else match nth_error l (Z.to_nat j) with
       | Some x => Ok x
       | None => Raise IndexError
       end.

(** A Python string is held as its UTF-8 encoding; [code_points] reads
    its characters back.  [pending] is the number of continuation bytes
    the character under way still needs.  Bytes that are no UTF-8 stand
    for no Python string; they read as the code point -1. *)
Fixpoint code_points_from (pending : nat) (acc : Z) (s : string) : list Z :=
  match s with
  | EmptyString => match pending with O => [] | S _ => [-1] end
  | String c rest =>
      let b := Z.of_nat (nat_of_ascii c) in
      match pending with
      | O =>
          if b <? 128 then b :: code_points_from 0 0 rest
          else if (192 <=? b) && (b <? 224)
               then code_points_from 1 (b - 192) rest
          else if (224 <=? b) && (b <? 240)
               then code_points_from 2 (b - 224) rest
          else if (240 <=? b) && (b <? 248)
               then code_points_from 3 (b - 240) rest
          else -1 :: code_points_from 0 0 rest
      | S k =>
          if (128 <=? b) && (b <? 192)
          then let acc' := acc * 64 + (b - 128) in
               match k with
               | O => acc' :: code_points_from 0 0 rest
               | S _ => code_points_from k acc' rest
               end
          else -1 :: code_points_from 0 0 rest
      end
  end.

Definition code_points (s : string) : list Z := code_points_from 0 0 s.

(** White space as [str.isspace] and [str.split()] see it
    ([Py_UNICODE_ISSPACE]). *)
Definition is_unicode_space (ch : Z) : bool :=
  ((9 <=? ch) && (ch <=? 13)) || ((28 <=? ch) && (ch <=? 32))
  || (ch =? 133) || (ch =? 160) || (ch =? 5760)
  || ((8192 <=? ch) && (ch <=? 8202))
  || (ch =? 8232) || (ch =? 8233) || (ch =? 8239) || (ch =? 8287)
  || (ch =? 12288).

(** [s.split()]: the maximal runs of characters that are not white space.
    [cur] is the run under way, last character first. *)
Fixpoint split_ws_from (cur : list Z) (s : list Z) : list (list Z) :=
  match s with
  | [] => match cur with [] => [] | _ :: _ => [rev cur] end
  | ch :: rest =>
      if is_unicode_space ch
      then match cur with
           | [] => split_ws_from [] rest
           | _ :: _ => rev cur :: split_ws_from [] rest
           end
      else split_ws_from (ch :: cur) rest
  end.

Definition str_split_ws (s : string) : list (list Z) :=
  split_ws_from [] (code_points s).

(** What [int] takes from the interpreter: the decimal digit value of a
    character in its Unicode database ([Py_UNICODE_TODECIMAL]), and
    [sys.get_int_max_str_digits()], where 0 stands for no limit. *)
Record Interpreter : Type := mkInterpreter {
  unicode_decimal : Z -> option Z;
  int_max_str_digits : Z
}.

(** The first step of [int(s)] for a string
    ([_PyUnicode_TransformDecimalAndSpaceToASCII]): a text of ASCII
    characters is taken as it is; in any other text the characters below
    127 stay, white space becomes a space, a decimal digit becomes its
    ASCII digit, and anything else becomes a question mark that ends the
    text. *)
Fixpoint transform_decimal_and_space (py : Interpreter) (s : list Z)
    : list Z :=
  match s with
  | [] => []
  | ch :: rest =>
      if ch <? 127 then ch :: transform_decimal_and_space py rest
      else if is_unicode_space ch
           then 32 :: transform_decimal_and_space py rest
      else match unicode_decimal py ch with
           | Some d => (48 + d) :: transform_decimal_and_space py rest
           | None => [63]
           end
  end.

Definition ascii_decimal (py : Interpreter) (s : list Z) : list Z :=
  if forallb (fun ch => ch <? 128) s then s
  else transform_decimal_and_space py s.

(** C's white space ([Py_ISSPACE]) and digits. *)
Definition is_space (c : Z) : bool := (c =? 32) || ((9 <=? c) && (c <=? 13)).

Definition is_digit (c : Z) : bool := (48 <=? c) && (c <=? 57).

Fixpoint skip_spaces (s : list Z) : list Z :=
  match s with
  | [] => []
  | c :: rest => if is_space c then skip_spaces rest else s
  end.

(** The scan of the digits: decimal digits, where one underscore may
    stand between two digits.  It returns the value, the number of digits
    and what follows the numeral, or [None] for two underscores in a row
    and for an underscore at the end. *)
Fixpoint scan_digits (s : list Z) (value digits : Z) (after_underscore : bool)
    : option (Z * Z * list Z) :=
  match s with
  | [] => if after_underscore then None else Some (value, digits, [])
  | c :: rest =>
      if is_digit c
      then scan_digits rest (value * 10 + (c - 48)) (digits + 1) false
      else if c =? 95
           then (if after_underscore then None
                 else scan_digits rest value digits true)
           else if after_underscore then None else Some (value, digits, s)
  end.

(** [PyLong_FromString] in base 10: white space, one sign, a numeral that
    does not begin with an underscore and has at least one digit, white
    space, and nothing else.  A numeral of more than 640 digits is checked
    against the interpreter's limit. *)
Definition long_from_string (py : Interpreter) (s : list Z) : result Z :=
  let s1 := skip_spaces s in
  let '(negative, s2) :=
    match s1 with
    | c :: rest =>
        if c =? 43 then (false, rest)
        else if c =? 45 then (true, rest)
        else (false, s1)
    | [] => (false, s1)
    end in
  if match s2 with c :: _ => c =? 95 | [] => false end then Raise ValueError
  else
    match scan_digits s2 0 0 false with
    | None => Raise ValueError
    | Some (value, digits, s3) =>
        if (640 <? digits) && (0 <? int_max_str_digits py)
           && (int_max_str_digits py <? digits)
        then Raise ValueError
        else if digits =? 0 then Raise ValueError
        else match skip_spaces s3 with
             | [] => Ok (if negative then - value else value)
             | _ :: _ => Raise ValueError
             end
    end.

(** [int(s)] for a string. *)
Definition int_of_str (py : Interpreter) (s : string) : result Z :=
  long_from_string py (ascii_decimal py (code_points s)).

(** [int(f)] for a float: truncation towards zero; [nan] and the
    infinities have no integer. *)
Definition int_of_float (f : spec_float) : result Z :=
  match f with
  | S754_zero _ => Ok 0
  | S754_nan => Raise ValueError
  | S754_infinity _ => Raise OverflowError
  | S754_finite neg m e =>
      let v := if 0 <=? e then Z.pos m * 2 ^ e else Z.pos m / 2 ^ (- e) in
      Ok (if neg then - v else v)
  end.

(** [int(v)]. *)
Definition py_int (py : Interpreter) (v : pyval) : result Z :=
  match v with
  | PyInt z => Ok z
  | PyBool b => Ok (if b then 1 else 0)
  | PyFloat f => int_of_float f
  | PyStr s => int_of_str py s
  | PyNone | PyList _ | PyDict _ => Raise TypeError
  end.

(** [v.get(key, dflt)]: only a dict has the method. *)
Definition py_get (v : pyval) (key : string) (dflt : pyval) : result pyval :=
  match v with
  | PyDict d => Ok (default dflt (d !! key))
  | _ => Raise AttributeError
  end.

(** [v.split(" ")]: only a string has the method. *)
Definition py_split_space (v : pyval) : result (list string) :=
  match v with
  | PyStr s => Ok (str_split " " s)
  | _ => Raise AttributeError
  end.

End Py.
Import Py.

(** ** The document tree of BeautifulSoup *)

Module Bs4.

(** A parsed document is a list of nodes; a tag owns its attributes (a
    dict) and its children.  A [Comment] is a string that [.text] leaves
    out and [.string] returns. *)
Inductive node : Type :=
  | NavigableString (s : string)
  | Comment (s : string)
  | Tag (name : string) (attrs : gmap string string) (contents : list node).

(** [n.descendants]: everything below [n], in document order. *)
Fixpoint descendants (n : node) : list node :=
  match n with
  | Tag _ _ contents => flat_map (fun c => c :: descendants c) contents
  | _ => []
  end.

(** The descendants of the [BeautifulSoup] object itself. *)
Definition soup_descendants (soup : list node) : list node :=
  flat_map (fun c => c :: descendants c) soup.

Definition own_text (n : node) : string :=
  match n with
  | NavigableString s => s
  | _ => ""
  end.

(** [n.text]: the strings below [n] joined, comments left out. *)
Definition text (n : node) : string :=
  match n with
  | NavigableString s => s
  | Comment _ => ""
  | Tag _ _ _ => String.concat "" (map own_text (descendants n))
  end.

(** [n.string]: the only child, if it is a string, looked for through
    chains of only children. *)
Fixpoint dot_string (n : node) : option string :=
  match n with
  | NavigableString s => Some s
  | Comment s => Some s
  | Tag _ _ [c] => dot_string c
  | Tag _ _ _ => None
  end.

Definition has_name (name : string) (n : node) : bool :=
  match n with
  | Tag nm _ _ => String.eqb nm name
  | _ => false
  end.

Definition has_attrs (wanted : list (string * string)) (n : node) : bool :=
  match n with
  | Tag _ attrs _ =>
      forallb (fun kv => bool_decide (attrs !! kv.1 = Some kv.2)) wanted
  | _ => false
  end.

(** [soup.find_all(name)]. *)
Definition find_all (name : string) (soup : list node) : list node :=
  List.filter (has_name name) (soup_descendants soup).

(** [soup.find(name, attrs)]: the first match in document order. *)
Definition find (name : string) (wanted : list (string * string))
    (soup : list node) : option node :=
  head (List.filter (fun n => has_name name n && has_attrs wanted n)
                    (soup_descendants soup)).

End Bs4.
Import Bs4.

(** ** The record of one scraped page *)

(** The fields that are copied from the metadata hold whatever JSON value
    was there; [keywords], [content] and [word_count] are computed. *)
Record Article : Type := mkArticle {
  url : string;
  post_id : pyval;
  title : pyval;
  keywords : list string;
  thumbnail : pyval;
  publication_date : pyval;
  last_updated_date : pyval;
  author : pyval;
  content : string;
  video_duration : pyval;
  word_count : Z;
  description : pyval;
  lang : pyval;
  classes : pyval;
  lite_url : pyval
}.

(** ** Effects: the trace, the environment, the monad *)

(** One constructor per [print] of the program. *)
Inductive message : Type :=
  | MsgFetchingIndex (index_url : string)
  | MsgFoundSitemaps (n : nat)
  | MsgFailedIndex (e : exn)
  | MsgFetchingArticles (sitemap_url : string)
  | MsgFoundArticles (n : nat)
  | MsgFailedArticles (sitemap_url : string) (e : exn)
  | MsgScraping (article_url : string)
  | MsgFailedScrape (article_url : string) (e : exn)
  | MsgSaved (n : nat) (filepath : string)
  | MsgFailedSave (filepath : string) (e : exn)
  | MsgProgress (article_count max_articles : Z)
  | MsgComplete (article_count : Z).

(** What the program does to the outside world, in the order it does it. *)
Inductive event : Type :=
  | EvPrint (m : message)
  | EvGet (target : string)
  | EvSleep (seconds : Z)
  | EvMakedirs (directory : string)
  | EvOpen (filepath : string)
  | EvWrite (filepath : string) (articles : list Article).

Inductive http_result : Type :=
  | Response (status_code : Z) (body : string)
  | RequestFails (e : exn).

(** The outside world.  The network and the file system may answer
    differently as the run goes on, so they see the trace so far.
    [BeautifulSoup] is the tolerant lxml parse, [json_loads] returns [None]
    where [json.loads] raises, [wait_exponential] is the pause tenacity
    takes after the attempt of the given number.  [open_fails] is the
    exception [open(filepath, 'w')] raises, if any; [dump_fails] is the
    exception that cuts short the writing of the records into the open
    file, if any. *)
Record Env : Type := mkEnv {
  interpreter : Interpreter;
  requests_get : list event -> string -> http_result;
  BeautifulSoup : string -> list node;
  json_loads : string -> option pyval;
  wait_exponential : nat -> Z;
  path_exists : list event -> string -> bool;
  makedirs_ok : list event -> string -> bool;
  open_fails : list event -> string -> option exn;
  dump_fails : list event -> string -> list Article -> option exn;
  path_sep : string
}.

(** A run: from the trace so far to a result and the longer trace. *)
Definition Run (A : Type) : Type := list event -> result A * list event.

#[global] Instance Run_ret : MRet Run := fun A a tr => (Ok a, tr).
#[global] Instance Run_bind : MBind Run := fun A B k c tr =>
  match c tr with
  | (Ok a, tr') => k a tr'
  | (Raise e, tr') => (Raise e, tr')
  end.

Definition emit (e : event) : Run unit := fun tr => (Ok tt, tr ++ [e]).
Definition print (m : message) : Run unit := emit (EvPrint m).
Definition raise {A} (e : exn) : Run A := fun tr => (Raise e, tr).
Definition lift {A} (r : result A) : Run A := fun tr => (r, tr).

(** [try: body except <class>: handler]. *)
Definition try_except {A} (body : Run A) (catches : exn -> bool)
    (handler : exn -> Run A) : Run A := fun tr =>
  match body tr with
  | (Ok a, tr') => (Ok a, tr')
  | (Raise e, tr') => if catches e then handler e tr' else (Raise e, tr')
  end.

(** [requests.get(url, timeout=10)]. *)
Definition get (env : Env) (target : string) : Run (Z * string) := fun tr =>
  match requests_get env tr target with
  | Response status body => (Ok (status, body), tr ++ [EvGet target])
  | RequestFails e => (Raise e, tr ++ [EvGet target])
  end.

(** [response.raise_for_status()]. *)
Definition raise_for_status (status : Z) : Run unit :=
  if (400 <=? status) && (status <? 600) then raise (HTTPError status)
  else mret tt.

(** tenacity's [retry]: call again while the call raises, pausing in
    between, and give up with [RetryError] after the last attempt. *)
Fixpoint retry_from {A} (env : Env) (attempt : nat) (remaining : nat)
    (call : Run A) : Run A := fun tr =>
  match call tr with
  | (Ok a, tr') => (Ok a, tr')
  | (Raise e, tr') =>
      match remaining with
      | O => (Raise RetryError, tr')
      | S r =>
          retry_from env (S attempt) r call
            (tr' ++ [EvSleep (wait_exponential env attempt)])
      end
  end.

(** [@retry(stop=stop_after_attempt(n), wait=wait_exponential(...))]. *)
Definition retry {A} (env : Env) (stop_after_attempt : nat) (call : Run A)
    : Run A :=
  retry_from env 1 (Nat.pred stop_after_attempt) call.

(** ** The program *)

Definition newline : string := String "010"%char EmptyString.

Module SitemapParser.

(** The body of [get_monthly_sitemaps], under the decorator. *)
Definition get_monthly_sitemaps_body (env : Env) (sitemap_index_url : string)
    : Run (list string) :=
  try_except
    (_ ← print (MsgFetchingIndex sitemap_index_url);
     response ← get env sitemap_index_url;
     _ ← raise_for_status response.1;
     let soup := BeautifulSoup env response.2 in
     let sitemaps := map text (find_all "loc" soup) in
     _ ← print (MsgFoundSitemaps (length sitemaps));
     mret sitemaps)
    is_RequestException
    (fun e => _ ← print (MsgFailedIndex e); mret []).

Definition get_monthly_sitemaps (env : Env) (sitemap_index_url : string)
    : Run (list string) :=
  retry env 3 (get_monthly_sitemaps_body env sitemap_index_url).

(** The body of [get_article_urls], under the decorator. *)
Definition get_article_urls_body (env : Env) (monthly_sitemap_url : string)
    : Run (list string) :=
  try_except
    (_ ← print (MsgFetchingArticles monthly_sitemap_url);
     response ← get env monthly_sitemap_url;
     _ ← raise_for_status response.1;
     let soup := BeautifulSoup env response.2 in
     let article_urls := map text (find_all "loc" soup) in
     _ ← print (MsgFoundArticles (length article_urls));
     mret article_urls)
    is_RequestException
    (fun e => _ ← print (MsgFailedArticles monthly_sitemap_url e); mret []).

Definition get_article_urls (env : Env) (monthly_sitemap_url : string)
    : Run (list string) :=
  retry env 3 (get_article_urls_body env monthly_sitemap_url).

End SitemapParser.

Module ArticleScraper.

Definition metadata_attrs : list (string * string) :=
  [("id", "tawsiyat-metadata"); ("type", "text/tawsiyat")].

(** [json.loads(script.string) if script else {}]. *)
Definition load_metadata (env : Env) (script : option node) : result pyval :=
  match script with
  | Some tag =>
      match dot_string tag with
      | Some s =>
          match json_loads env s with
          | Some v => Ok v
          | None => Raise ValueError
          end
      | None => Raise TypeError
      end
  | None => Ok (PyDict ∅)
  end.

(** The loop over [soup.find_all("p")]. *)
Definition paragraphs_text (soup : list node) : string :=
  fold_left (fun full_text p => full_text +:+ (text p +:+ newline))
            (find_all "p" soup) "".

(** From the parsed page to the record: the statements of [scrape] after
    the parse.  The word count of the body is computed and dropped, as in
    the source. *)
Definition build_article (env : Env) (article_url : string)
    (soup : list node) : result Article :=
  let script := find "script" metadata_attrs soup in
  metadata ← load_metadata env script;
  let full_text := paragraphs_text soup in
  let _ := length (str_split_ws full_text) in
  v_post_id ← py_get metadata "postid" (PyStr "");
  v_title ← py_get metadata "title" (PyStr "");
  v_keywords ← py_get metadata "keywords" (PyStr "") ≫= py_split_space;
  v_thumbnail ← py_get metadata "thumbnail" (PyStr "");
  v_publication_date ← py_get metadata "published_time" (PyStr "");
  v_last_updated_date ← py_get metadata "last_updated" (PyStr "");
  v_author ← py_get metadata "author" (PyStr "");
  v_video_duration ← py_get metadata "video_duration" (PyStr "");
  v_word_count ← py_get metadata "word_count" (PyInt 0)
                   ≫= py_int (interpreter env);
  v_description ← py_get metadata "description" (PyStr "");
  v_lang ← py_get metadata "lang" (PyStr "");
  v_classes ← py_get metadata "classes" (PyList []);
  v_lite_url ← py_get metadata "lite_url" (PyStr "");
  Ok {| url := article_url;
        post_id := v_post_id;
        title := v_title;
        keywords := v_keywords;
        thumbnail := v_thumbnail;
        publication_date := v_publication_date;
        last_updated_date := v_last_updated_date;
        author := v_author;
        content := full_text;
        video_duration := v_video_duration;
        word_count := v_word_count;
        description := v_description;
        lang := v_lang;
        classes := v_classes;
        lite_url := v_lite_url |}.

(** The body of [scrape], under the decorator: [None] stands for the
    failure the caller skips. *)
Definition scrape_body (env : Env) (article_url : string)
    : Run (option Article) :=
  try_except
    (_ ← print (MsgScraping article_url);
     response ← get env article_url;
     _ ← raise_for_status response.1;
     let soup := BeautifulSoup env response.2 in
     article ← lift (build_article env article_url soup);
     mret (Some article))
    (fun _ => true)
    (fun e => _ ← print (MsgFailedScrape article_url e); mret None).

Definition scrape (env : Env) (article_url : string) : Run (option Article) :=
  retry env 3 (scrape_body env article_url).

End ArticleScraper.

Module FileUtility.

Definition directory : string :=
  "C:\Users\Owner\PycharmProjects\pythonProject2".

(** [os.makedirs(directory)]. *)
Definition makedirs (env : Env) (dir : string) : Run unit := fun tr =>
  if makedirs_ok env tr dir then (Ok tt, tr ++ [EvMakedirs dir])
  else (Raise OSError, tr).

(** [open(filepath, 'w', encoding='utf-8')]: the file is there and empty
    once it is open. *)
Definition open_w (env : Env) (filepath : string) : Run unit := fun tr =>
  match open_fails env tr filepath with
  | None => (Ok tt, tr ++ [EvOpen filepath])
  | Some e => (Raise e, tr)
  end.

(** [json.dump] of the records into the open file, and the end of the
    [with] block.  The text is written piece by piece: when an exception
    cuts it short, the file keeps the pieces written so far, and the trace
    has the [EvOpen] of the file without an [EvWrite]. *)
Definition dump (env : Env) (filepath : string) (articles : list Article)
    : Run unit := fun tr =>
  match dump_fails env tr filepath articles with
  | None => (Ok tt, tr ++ [EvWrite filepath articles])
  | Some e => (Raise e, tr)
  end.

(** [if article] in the comprehension: a record is always true. *)
Definition truthy (article : Article) : bool := true.

Definition save_to_json (env : Env) (articles : list Article)
    (year month : string) : Run unit :=
  present ← (fun tr => (Ok (path_exists env tr directory), tr));
  _ ← (if present : bool then mret tt else makedirs env directory);
  let filepath :=
    directory +:+ path_sep env +:+ "articles_" +:+ year +:+ "_" +:+ month
      +:+ ".json" in
  try_except
    (_ ← open_w env filepath;
     _ ← dump env filepath (List.filter truthy articles);
     print (MsgSaved (length articles) filepath))
    (fun _ => true)
    (fun e => print (MsgFailedSave filepath e)).

End FileUtility.

Definition sitemap_index_url : string :=
  "https://www.almayadeen.net/sitemaps/all.xml".

(** [sitemap_url.split('-')[-2], sitemap_url.split('-')[-1].replace('.xml', '')]. *)
Definition month_key (sitemap_url : string) : result (string * string) :=
  year ← py_index (str_split "-" sitemap_url) (-2);
  last ← py_index (str_split "-" sitemap_url) (-1);
  Ok (year, str_replace ".xml" "" last).

(** [for url in article_urls]: the state is [(articles, article_count)]. *)
Fixpoint articles_loop (env : Env) (max_articles : Z)
    (article_urls : list string) (st : list Article * Z)
    : Run (list Article * Z) :=
  match article_urls with
  | [] => mret st
  | article_url :: rest =>
      if max_articles <=? st.2 then mret st
      else
        scraped ← ArticleScraper.scrape env article_url;
        match scraped with
        | Some article =>
            let st' := (st.1 ++ [article], st.2 + 1) in
            _ ← print (MsgProgress st'.2 max_articles);
            articles_loop env max_articles rest st'
        | None => articles_loop env max_articles rest st
        end
  end.

(** [if articles: ... save ...; articles = []]: returns the accumulator
    the next month starts with. *)
Definition flush (env : Env) (sitemap_url : string)
    (articles : list Article) : Run (list Article) :=
  match articles with
  | [] => mret articles
  | _ :: _ =>
      key ← lift (month_key sitemap_url);
      _ ← FileUtility.save_to_json env articles key.1 key.2;
      mret []
  end.

(** [for sitemap_url in monthly_sitemaps]. *)
Fixpoint months_loop (env : Env) (max_articles : Z)
    (monthly_sitemaps : list string) (st : list Article * Z)
    : Run (list Article * Z) :=
  match monthly_sitemaps with
  | [] => mret st
  | sitemap_url :: rest =>
      if max_articles <=? st.2 then mret st
      else
        article_urls ← SitemapParser.get_article_urls env sitemap_url;
        st' ← articles_loop env max_articles article_urls st;
        articles' ← flush env sitemap_url st'.1;
        months_loop env max_articles rest (articles', st'.2)
  end.

(** [main], with the cap as a parameter. *)
Definition main_with (env : Env) (max_articles : Z) : Run unit :=
  monthly_sitemaps ← SitemapParser.get_monthly_sitemaps env sitemap_index_url;
  st ← months_loop env max_articles monthly_sitemaps ([], 0);
  print (MsgComplete st.2).

Definition main (env : Env) : Run unit := main_with env 10000.

(** ** Concrete worlds

    A world is a table of what the network answers, of the tree the parser
    builds for a response body, and of the value the JSON decoder returns
    for a script text.  Documents are written out as markup, so the bodies
    in the tables are the text a server would send. *)

Module Demo.

Fixpoint assoc {A} (key : string) (table : list (string * A)) : option A :=
  match table with
  | [] => None
  | (k, v) :: rest => if String.eqb k key then Some v else assoc key rest
  end.

Definition quote : string := String "034"%char EmptyString.

Definition attr_markup (kv : string * string) : string :=
  " " +:+ kv.1 +:+ "=" +:+ quote +:+ kv.2 +:+ quote.

(** The markup of a tree. *)
Fixpoint markup (n : node) : string :=
  match n with
  | NavigableString s => s
  | Comment s => "<!--" +:+ s +:+ "-->"
  | Tag name attrs contents =>
      "<" +:+ name +:+ String.concat "" (map attr_markup (map_to_list attrs))
        +:+ ">" +:+ String.concat "" (map markup contents)
        +:+ "</" +:+ name +:+ ">"
  end.

Definition document (soup : list node) : string :=
  String.concat "" (map markup soup).

Definition el (name : string) (contents : list node) : node :=
  Tag name ∅ contents.

(** A sitemap: one [url] entry with its [loc] for every location.
    [sitemap_body] is the text a server sends; [sitemap] is the tree the
    parser builds for it, which puts the document into [html] and [body]
    as the lxml parser for HTML does. *)
Definition urlset (locs : list string) : node :=
  el "urlset" (map (fun u => el "url" [el "loc" [NavigableString u]]) locs).

Definition sitemap_body (locs : list string) : string := markup (urlset locs).

Definition sitemap (locs : list string) : list node :=
  [el "html" [el "body" [urlset locs]]].

Definition metadata_script (json : string) : node :=
  Tag "script"
      (<["id" := "tawsiyat-metadata"]> (<["type" := "text/tawsiyat"]> ∅))
      [NavigableString json].

(** An article page: the metadata script, if any, and the paragraphs. *)
Definition page (json : option string) (paragraphs : list string)
    : list node :=
  [el "html"
     [el "head" (match json with Some j => [metadata_script j] | None => [] end);
      el "body" (map (fun p => el "p" [NavigableString p]) paragraphs)]].

Record world : Type := mkWorld {
  served : list (string * http_result);
  parsed : list (string * list node);
  decoded : list (string * pyval);
  dir_present : bool;
  can_mkdir : bool;
  can_write : bool;
  dump_raises : option exn
}.

Definition is_makedirs (dir : string) (e : event) : bool :=
  match e with
  | EvMakedirs d => String.eqb d dir
  | _ => false
  end.

(** The decimal digits of Unicode 14.0, the database of CPython 3.11: the
    first code point of every run of the ten digits of a script. *)
Definition decimal_digit_zeros : list Z :=
  [48; 1632; 1776; 1984; 2406; 2534; 2662; 2790; 2918; 3046; 3174; 3302;
   3430; 3558; 3664; 3792; 3872; 4160; 4240; 6112; 6160; 6470; 6608; 6784;
   6800; 6992; 7088; 7232; 7248; 42528; 43216; 43264; 43472; 43504; 43600;
   44016; 65296; 66720; 68912; 69734; 69872; 69942; 70096; 70384; 70736;
   70864; 71248; 71360; 71472; 71904; 72016; 72784; 73040; 73120; 92768;
   92864; 93008; 120782; 120792; 120802; 120812; 120822; 123200; 123632;
   125264; 130032].

Definition decimal_of (zeros : list Z) (ch : Z) : option Z :=
  match List.filter (fun zero => (zero <=? ch) && (ch <? zero + 10)) zeros with
  | zero :: _ => Some (ch - zero)
  | [] => None
  end.

(** CPython 3.11 as it comes. *)
Definition cpython : Interpreter :=
  {| unicode_decimal := decimal_of decimal_digit_zeros;
     int_max_str_digits := 4300 |}.

(** The environment of a world: an address that is not served refuses the
    connection, a body that is not in the table parses to the empty tree,
    a text that is not in the table is not JSON.  The pauses are those of
    [wait_exponential(multiplier=1, min=2, max=10)].  A file that cannot
    be opened gives [OSError]. *)
Definition env_of (w : world) : Env :=
  {| interpreter := cpython;
     requests_get := fun _ target =>
       default (RequestFails ConnectionError) (assoc target (served w));
     BeautifulSoup := fun body => default [] (assoc body (parsed w));
     json_loads := fun s => assoc s (decoded w);
     wait_exponential := fun attempt =>
       Z.max 2 (Z.min (2 ^ (Z.of_nat attempt - 1)) 10);
     path_exists := fun tr dir =>
       dir_present w || existsb (is_makedirs dir) tr;
     makedirs_ok := fun _ _ => can_mkdir w;
     open_fails := fun _ _ => if can_write w then None else Some OSError;
     dump_fails := fun _ _ _ => dump_raises w;
     path_sep := "\" |}.

(** A server answers 200 with the markup of the tree; the parser gives the
    tree back. *)
Definition serves (target : string) (soup : list node)
    : string * http_result :=
  (target, Response 200 (document soup)).

Definition parses (soup : list node) : string * list node :=
  (document soup, soup).

Definition serves_sitemap (target : string) (locs : list string)
    : string * http_result :=
  (target, Response 200 (sitemap_body locs)).

Definition parses_sitemap (locs : list string) : string * list node :=
  (sitemap_body locs, sitemap locs).

End Demo.

(** ** Observing a run

    A monitor reads the trace of a run.  It keeps the counter as the
    progress lines report it, the number of articles accumulated since the
    last flush, and the addresses scraped since the last flush; a flush is
    a write or the report of a failed write. *)

Record monitor : Type := mkMonitor {
  seen : Z;
  batch : nat;
  scraped : list string
}.

Definition observe (m : monitor) (e : event) : monitor :=
  match e with
  | EvPrint (MsgProgress n _) =>
      {| seen := n; batch := S (batch m); scraped := scraped m |}
  | EvPrint (MsgScraping u) =>
      {| seen := seen m; batch := batch m; scraped := u :: scraped m |}
  | EvWrite _ _ | EvPrint (MsgFailedSave _ _) =>
      {| seen := seen m; batch := O; scraped := [] |}
  | _ => m
  end.

(** What the monitor accepts next: a progress line that counts one up and
    stays within the cap, a write of exactly what was accumulated since the
    last flush, the other events of a flush at any time, and everything
    else (requests, pauses, the lines about fetching and scraping) only
    below the cap. *)
Definition allowed (max_articles : Z) (m : monitor) (e : event) : Prop :=
  match e with
  | EvPrint (MsgProgress n k) =>
      n = seen m + 1 /\ n <= max_articles /\ k = max_articles
  | EvWrite _ b =>
      length b = batch m /\ Forall (fun a => In (url a) (scraped m)) b
  | EvMakedirs _ | EvOpen _ | EvPrint (MsgSaved _ _)
  | EvPrint (MsgFailedSave _ _) | EvPrint (MsgComplete _) => True
  | _ => seen m < max_articles
  end.

Fixpoint audit (max_articles : Z) (m : monitor) (tr : list event) : Prop :=
  match tr with
  | [] => True
  | e :: rest => allowed max_articles m e /\ audit max_articles (observe m e) rest
  end.

Definition final (m : monitor) (tr : list event) : monitor :=
  fold_left observe tr m.

(** The monitor at the start of [main]. *)
Definition start : monitor := {| seen := 0; batch := O; scraped := [] |}.

(** The monitor and the state of the loops tell the same story. *)
Definition agrees (m : monitor) (st : list Article * Z) : Prop :=
  seen m = st.2 /\ batch m = length st.1 /\
  Forall (fun a => In (url a) (scraped m)) st.1.

Definition is_get (e : event) : bool :=
  match e with EvGet _ => true | _ => false end.

Definition is_progress (e : event) : bool :=
  match e with EvPrint (MsgProgress _ _) => true | _ => false end.

Definition is_scraping (e : event) : bool :=
  match e with EvPrint (MsgScraping _) => true | _ => false end.

Definition is_write (e : event) : bool :=
  match e with EvWrite _ _ => true | _ => false end.

Definition is_failed_save (e : event) : bool :=
  match e with EvPrint (MsgFailedSave _ _) => true | _ => false end.

Definition is_sleep (e : event) : bool :=
  match e with EvSleep _ => true | _ => false end.

(** A flush: a write, or the report of a write that failed. *)
Definition is_flush (e : event) : bool := is_write e || is_failed_save e.

(** The part of a trace that lies after its last flush. *)
Definition since_last_flush (tr : list event) : list event :=
  fold_left (fun recent e => if is_flush e then [] else recent ++ [e]) tr [].

(** The events of fetching and scraping that the monitor lets pass below
    the cap without changing its state. *)
Definition calm (e : event) : bool :=
  match e with
  | EvGet _ | EvSleep _ => true
  | EvPrint (MsgFetchingIndex _) | EvPrint (MsgFoundSitemaps _)
  | EvPrint (MsgFailedIndex _) | EvPrint (MsgFetchingArticles _)
  | EvPrint (MsgFoundArticles _) | EvPrint (MsgFailedArticles _ _)
  | EvPrint (MsgFailedScrape _ _) => true
  | _ => false
  end.

(** The events of the flush statement and of the end of [main]. *)
Definition is_closing (e : event) : bool :=
  match e with
  | EvMakedirs _ | EvOpen _ | EvWrite _ _ => true
  | EvPrint (MsgSaved _ _) | EvPrint (MsgFailedSave _ _)
  | EvPrint (MsgComplete _) => true
  | _ => false
  end.

(** Everything the run wrote, in order. *)
Definition written (tr : list event) : list Article :=
  flat_map (fun e => match e with EvWrite _ b => b | _ => [] end) tr.

(** The file [save_to_json] writes for a year and a month. *)
Definition filepath_of (env : Env) (year month : string) : string :=
  FileUtility.directory +:+ path_sep env +:+ "articles_" +:+ year +:+ "_"
    +:+ month +:+ ".json".

Definition is_makedirs (e : event) : bool :=
  match e with EvMakedirs _ => true | _ => false end.

(** The addresses of the requests of a trace, in order. *)
Definition requested (tr : list event) : list string :=
  flat_map (fun e => match e with EvGet u => [u] | _ => [] end) tr.

(** The pauses of a trace, in order. *)
Definition pauses (tr : list event) : list Z :=
  flat_map (fun e => match e with EvSleep s => [s] | _ => [] end) tr.

(** ** The claims in the words of the specification *)

(** Paragraph texts with a newline between consecutive ones. *)
Definition joined_paragraphs (soup : list node) : string :=
  String.concat newline (map text (find_all "p" soup)).

(** [s] without the suffix, if it ends with it. *)
Definition strip_suffix (suffix s : string) : string :=
  let n := (String.length s - String.length suffix)%nat in
  if (String.length suffix <=? String.length s)%nat
     && String.eqb (String.substring n (String.length suffix) s) suffix
  then String.substring 0 n s
  else s.

(** Second-to-last token and last token with the [.xml] suffix stripped. *)
Definition month_key_as_specified (sitemap_url : string)
    : result (string * string) :=
  year ← py_index (str_split "-" sitemap_url) (-2);
  last ← py_index (str_split "-" sitemap_url) (-1);
  Ok (year, strip_suffix ".xml" last).

(** The number of elements of a name in a tree, counted on the tree. *)
Fixpoint count_tag (name : string) (n : node) : nat :=
  match n with
  | Tag nm _ contents =>
      ((if String.eqb nm name then 1 else 0)
       + list_sum (map (count_tag name) contents))%nat
  | _ => O
  end.

Definition count_tags (name : string) (soup : list node) : nat :=
  list_sum (map (count_tag name) soup).

Fixpoint contains_char (c : ascii) (s : string) : bool :=
  match s with
  | EmptyString => false
  | String x rest => Ascii.eqb x c || contains_char c rest
  end.

(** The metadata object embedded in a page: the value the decoder gives
    for the text of the metadata script, and the empty object for a page
    without the script. *)
Definition embedded_metadata (env : Env) (soup : list node) : option pyval :=
  match find "script" ArticleScraper.metadata_attrs soup with
  | None => Some (PyDict ∅)
  | Some tag =>
      match dot_string tag with
      | Some s => json_loads env s
      | None => None
      end
  end.

(** The code of a character. *)
Definition char_code (c : ascii) : Z := Z.of_nat (nat_of_ascii c).

Definition digit_of (c : ascii) : option Z :=
  let n := Z.of_nat (nat_of_ascii c) in
  if (48 <=? n) && (n <=? 57) then Some (n - 48) else None.

(** What a string of decimal digits denotes: every digit counts for the
    power of ten of its place. *)
Fixpoint digits_value (s : string) : option Z :=
  match s with
  | EmptyString => Some 0
  | String c rest =>
      match digit_of c, digits_value rest with
      | Some d, Some v => Some (d * 10 ^ Z.of_nat (String.length rest) + v)
      | _, _ => None
      end
  end.

(** The integer a decimal numeral denotes: digits, at least one, after an
    optional minus sign. *)
Definition integer_of_numeral (s : string) : option Z :=
  match s with
  | EmptyString => None
  | String c rest =>
      if Ascii.eqb c "-"
      then match rest with
           | EmptyString => None
           | String _ _ => option_map Z.opp (digits_value rest)
           end
      else digits_value s
  end.

(** ** Scenarios *)

Module Scenario.
Import Demo.

Definition august : string :=
  "https://www.almayadeen.net/sitemaps/all/sitemap-2023-8.xml".
Definition september : string :=
  "https://www.almayadeen.net/sitemaps/all/sitemap-2023-9.xml".
Definition first : string := "https://www.almayadeen.net/articles/first".
Definition second : string := "https://www.almayadeen.net/articles/second".
Definition third : string := "https://www.almayadeen.net/articles/third".

(** [{"word_count": 7}] and [{"word_count": "abc"}]. *)
Definition seven_json : string :=
  "{" +:+ quote +:+ "word_count" +:+ quote +:+ ": 7}".
Definition abc_json : string :=
  "{" +:+ quote +:+ "word_count" +:+ quote +:+ ": " +:+ quote +:+ "abc"
    +:+ quote +:+ "}".

Definition months : list string := [august; september].
Definition august_articles : list string := [first; second].
Definition september_articles : list string := [third].

(** A page with the empty metadata object, one without a metadata script,
    two with the same metadata and different bodies, one whose word count
    is not a number. *)
Definition empty_page : list node := page (Some "{}") ["Hello"; "World"].
Definition bare_page : list node := page None ["Second"].
Definition seven_page : list node := page (Some seven_json) ["Third"].
Definition seven_page' : list node :=
  page (Some seven_json) ["one two three"; "four"].
Definition abc_page : list node := page (Some abc_json) ["Body"].

Definition decoder : list (string * pyval) :=
  [("{}", PyDict ∅);
   (seven_json, PyDict (<["word_count" := PyInt 7]> ∅));
   (abc_json, PyDict (<["word_count" := PyStr "abc"]> ∅))].

(** Two months, two articles and one article. *)
Definition crawl : world :=
  {| served := [serves_sitemap sitemap_index_url months;
                serves_sitemap august august_articles;
                serves_sitemap september september_articles;
                serves first empty_page;
                serves second bare_page;
                serves third seven_page];
     parsed := map parses_sitemap [months; august_articles; september_articles]
               ++ map parses [empty_page; bare_page; seven_page];
     decoded := decoder;
     dir_present := false; can_mkdir := true; can_write := true;
     dump_raises := None |}.

(** The same, where the second article has a word count that is not a
    number. *)
Definition crawl_abc : world :=
  {| served := [serves_sitemap sitemap_index_url months;
                serves_sitemap august august_articles;
                serves_sitemap september september_articles;
                serves first empty_page;
                serves second abc_page;
                serves third seven_page];
     parsed := map parses_sitemap [months; august_articles; september_articles]
               ++ map parses [empty_page; abc_page; seven_page];
     decoded := decoder;
     dir_present := false; can_mkdir := true; can_write := true;
     dump_raises := None |}.

(** The same as [crawl], where the output directory is missing and cannot
    be created. *)
Definition crawl_no_directory : world :=
  {| served := served crawl; parsed := parsed crawl; decoded := decoder;
     dir_present := false; can_mkdir := false; can_write := true;
     dump_raises := None |}.

(** The first monthly sitemap has an address without a dash. *)
Definition latest : string :=
  "https://www.almayadeen.net/sitemaps/all/latest.xml".
Definition months_latest : list string := [latest; september].

Definition crawl_latest : world :=
  {| served := [serves_sitemap sitemap_index_url months_latest;
                serves_sitemap latest august_articles;
                serves_sitemap september september_articles;
                serves first empty_page;
                serves second bare_page;
                serves third seven_page];
     parsed := map parses_sitemap [months_latest; august_articles;
                                   september_articles]
               ++ map parses [empty_page; bare_page; seven_page];
     decoded := decoder;
     dir_present := false; can_mkdir := true; can_write := true;
     dump_raises := None |}.

(** Nothing is served: every connection is refused. *)
Definition offline : world :=
  {| served := []; parsed := []; decoded := [];
     dir_present := false; can_mkdir := true; can_write := true;
     dump_raises := None |}.

(** The server answers 500 to everything that is asked here. *)
Definition broken : world :=
  {| served := [(sitemap_index_url, Response 500 "");
                (august, Response 500 ""); (first, Response 500 "")];
     parsed := []; decoded := [];
     dir_present := false; can_mkdir := true; can_write := true;
     dump_raises := None |}.

(** A sitemap cut off after its first entry: the elements [urlset] and
    [url] are never closed.  The recovering parser closes them at the end
    of the input, so it builds the tree of the complete one-entry
    sitemap. *)
Definition cut_off_body : string :=
  "<urlset><url><loc>https://www.almayadeen.net/articles/first</loc>".

Definition crawl_cut_off : world :=
  {| served := [(august, Response 200 cut_off_body)];
     parsed := [(cut_off_body, sitemap [first])];
     decoded := [];
     dir_present := false; can_mkdir := true; can_write := true;
     dump_raises := None |}.

(** The record of the third article. *)
Definition third_record : Article :=
  {| url := third; post_id := PyStr ""; title := PyStr ""; keywords := [""];
     thumbnail := PyStr ""; publication_date := PyStr "";
     last_updated_date := PyStr ""; author := PyStr "";
     content := "Third" +:+ newline; video_duration := PyStr "";
     word_count := 7; description := PyStr ""; lang := PyStr "";
     classes := PyList []; lite_url := PyStr "" |}.

(** A compressed monthly sitemap. *)
Definition august_gz : string :=
  "https://www.almayadeen.net/sitemaps/all/sitemap-2023-8.xml.gz".

(** Requests for the index and for August fail with an exception that is
    not a [RequestException]. *)
Definition garbled : world :=
  {| served := [(sitemap_index_url, RequestFails ValueError);
                (august, RequestFails ValueError)];
     parsed := []; decoded := [];
     dir_present := false; can_mkdir := true; can_write := true;
     dump_raises := None |}.

(** The world of [crawl], where every request fails in that way until the
    first pause has been taken. *)
Definition flaky : Env :=
  {| interpreter := interpreter (env_of crawl);
     requests_get := fun tr target =>
       if existsb is_sleep tr
       then requests_get (env_of crawl) tr target
       else RequestFails ValueError;
     BeautifulSoup := BeautifulSoup (env_of crawl);
     json_loads := json_loads (env_of crawl);
     wait_exponential := wait_exponential (env_of crawl);
     path_exists := path_exists (env_of crawl);
     makedirs_ok := makedirs_ok (env_of crawl);
     open_fails := open_fails (env_of crawl);
     dump_fails := dump_fails (env_of crawl);
     path_sep := path_sep (env_of crawl) |}.

(** A page whose metadata names three keywords. *)
Definition keywords_json : string :=
  "{" +:+ quote +:+ "keywords" +:+ quote +:+ ": " +:+ quote
    +:+ "gaza lebanon  news" +:+ quote +:+ "}".
Definition keywords_page : list node := page (Some keywords_json) ["Body"].

Definition crawl_keywords : world :=
  {| served := [serves first keywords_page];
     parsed := [parses keywords_page];
     decoded := [(keywords_json,
                  PyDict (<["keywords" := PyStr "gaza lebanon  news"]> ∅))];
     dir_present := true; can_mkdir := true; can_write := true;
     dump_raises := None |}.

(** The directory is there, the file cannot be opened. *)
Definition crawl_read_only : world :=
  {| served := served crawl; parsed := parsed crawl; decoded := decoder;
     dir_present := true; can_mkdir := true; can_write := false;
     dump_raises := None |}.

(** The file can be opened, and the writing of the records is cut short:
    a record holds a lone surrogate, which the encoder of the file
    rejects. *)
Definition crawl_cut_short : world :=
  {| served := served crawl; parsed := parsed crawl; decoded := decoder;
     dir_present := true; can_mkdir := true; can_write := true;
     dump_raises := Some UnicodeEncodeError |}.

(** A numeral of [n] digits. *)
Definition ones (n : nat) : string := String.concat "" (repeat "1" n).

(** [{"word_count": "450"}]: the count as a string. *)
Definition numeral_json : string :=
  "{" +:+ quote +:+ "word_count" +:+ quote +:+ ": " +:+ quote +:+ "450"
    +:+ quote +:+ "}".
Definition numeral_page : list node := page (Some numeral_json) ["Body"].

Definition crawl_numeral : world :=
  {| served := [serves first numeral_page];
     parsed := [parses numeral_page];
     decoded := [(numeral_json,
                  PyDict (<["word_count" := PyStr "450"]> ∅))];
     dir_present := true; can_mkdir := true; can_write := true;
     dump_raises := None |}.

(** A long month.  The index lists one monthly sitemap, the one whose
    address has no dash; it lists [n] articles; every article is the page
    without metadata.  The directory is there and every file can be
    written. *)
Definition article (i : nat) : string :=
  "https://www.almayadeen.net/articles/"
    +:+ NilEmpty.string_of_uint (Nat.to_uint i).

Definition long_month (n : nat) : list string := map article (seq 1 n).

Definition crowded_with (n : nat) : Env :=
  {| interpreter := cpython;
     requests_get := fun _ target =>
       if String.eqb target sitemap_index_url
       then Response 200 (sitemap_body [latest])
       else if String.eqb target latest
            then Response 200 (sitemap_body (long_month n))
            else Response 200 (document bare_page);
     BeautifulSoup := fun body =>
       if String.eqb body (document bare_page) then bare_page
       else if String.eqb body (sitemap_body [latest]) then sitemap [latest]
       else if String.eqb body (sitemap_body (long_month n))
            then sitemap (long_month n)
            else [];
     json_loads := fun _ => None;
     wait_exponential := wait_exponential (env_of crawl);
     path_exists := fun _ _ => true;
     makedirs_ok := fun _ _ => true;
     open_fails := fun _ _ => None;
     dump_fails := fun _ _ _ => None;
     path_sep := "\" |}.

Definition crowded (articles : Z) : Env := crowded_with (Z.to_nat articles).

(** The record of a page without metadata. *)
Definition bare_record (article_url : string) : Article :=
  {| url := article_url; post_id := PyStr ""; title := PyStr "";
     keywords := [""]; thumbnail := PyStr ""; publication_date := PyStr "";
     last_updated_date := PyStr ""; author := PyStr "";
     content := "Second" +:+ newline; video_duration := PyStr "";
     word_count := 0; description := PyStr ""; lang := PyStr "";
     classes := PyList []; lite_url := PyStr "" |}.

(** The events of scraping the addresses one after the other, each with
    success, from the counter [count] on. *)
Fixpoint scraped_in_turn (max_articles count : Z) (article_urls : list string)
    : list event :=
  match article_urls with
  | [] => []
  | article_url :: rest =>
      [EvPrint (MsgScraping article_url); EvGet article_url;
       EvPrint (MsgProgress (count + 1) max_articles)]
        ++ scraped_in_turn max_articles (count + 1) rest
  end.

End Scenario.

(** * Theorems *)

Import ArticleScraper SitemapParser FileUtility.

(** ** Running the monad *)

Ltac run_unfold :=
  unfold mbind, Run_bind, mret, Run_ret, print, emit, raise, lift, try_except,
         get, raise_for_status in *.

Lemma bind_run {A B} (c : Run A) (k : A -> Run B) tr :
  (c ≫= k) tr =
    match c tr with
    | (Ok a, tr') => k a tr'
    | (Raise e, tr') => (Raise e, tr')
    end.
Proof. reflexivity. Qed.

Lemma retry_returns {A} env n (call : Run A) tr a tr' :
  call tr = (Ok a, tr') -> retry env n call tr = (Ok a, tr').
Proof.
  intros H. unfold retry. destruct (Nat.pred n); simpl; rewrite H; reflexivity.
Qed.

Lemma filter_truthy articles : List.filter truthy articles = articles.
Proof.
  induction articles as [|a l IH]; simpl; [reflexivity | now rewrite IH].
Qed.

(** ** The functions, step by step *)

Lemma scrape_body_run env u tr :
  scrape_body env u tr =
    let tr1 := tr ++ [EvPrint (MsgScraping u)] in
    match requests_get env tr1 u with
    | RequestFails e =>
        (Ok None, tr1 ++ [EvGet u; EvPrint (MsgFailedScrape u e)])
    | Response status body =>
        if (400 <=? status) && (status <? 600)
        then (Ok None,
              tr1 ++ [EvGet u; EvPrint (MsgFailedScrape u (HTTPError status))])
        else match build_article env u (BeautifulSoup env body) with
             | Ok a => (Ok (Some a), tr1 ++ [EvGet u])
             | Raise e =>
                 (Ok None, tr1 ++ [EvGet u; EvPrint (MsgFailedScrape u e)])
             end
    end.
Proof.
  unfold scrape_body. run_unfold. cbn.
  destruct (requests_get env _ u) as [status body|e]; cbn.
  - destruct ((400 <=? status) && (status <? 600)); cbn.
    + rewrite <- app_assoc. reflexivity.
    + destruct (build_article env u _); cbn; rewrite <- ?app_assoc; reflexivity.
  - rewrite <- !app_assoc. reflexivity.
Qed.

Lemma scrape_is_body env u tr : scrape env u tr = scrape_body env u tr.
Proof.
  unfold scrape. destruct (scrape_body env u tr) as [[r|e] tr'] eqn:H.
  - now apply retry_returns.
  - exfalso. rewrite scrape_body_run in H. cbn in H.
    destruct (requests_get env _ u); [|discriminate].
    destruct ((400 <=? status_code) && (status_code <? 600)); [discriminate|].
    destruct (build_article env u _); discriminate.
Qed.

Lemma get_article_urls_body_run env u tr :
  get_article_urls_body env u tr =
    let tr1 := tr ++ [EvPrint (MsgFetchingArticles u)] in
    match requests_get env tr1 u with
    | RequestFails e =>
        if is_RequestException e
        then (Ok [], tr1 ++ [EvGet u; EvPrint (MsgFailedArticles u e)])
        else (Raise e, tr1 ++ [EvGet u])
    | Response status body =>
        if (400 <=? status) && (status <? 600)
        then (Ok [],
              tr1 ++ [EvGet u; EvPrint (MsgFailedArticles u (HTTPError status))])
        else let locs := map text (find_all "loc" (BeautifulSoup env body)) in
             (Ok locs, tr1 ++ [EvGet u; EvPrint (MsgFoundArticles (length locs))])
    end.
Proof.
  unfold get_article_urls_body. run_unfold. cbn.
  destruct (requests_get env _ u) as [status body|e]; cbn.
  - destruct ((400 <=? status) && (status <? 600)); cbn;
      rewrite <- !app_assoc; reflexivity.
  - destruct (is_RequestException e); rewrite <- ?app_assoc; reflexivity.
Qed.

Lemma get_monthly_sitemaps_body_run env u tr :
  get_monthly_sitemaps_body env u tr =
    let tr1 := tr ++ [EvPrint (MsgFetchingIndex u)] in
    match requests_get env tr1 u with
    | RequestFails e =>
        if is_RequestException e
        then (Ok [], tr1 ++ [EvGet u; EvPrint (MsgFailedIndex e)])
        else (Raise e, tr1 ++ [EvGet u])
    | Response status body =>
        if (400 <=? status) && (status <? 600)
        then (Ok [], tr1 ++ [EvGet u; EvPrint (MsgFailedIndex (HTTPError status))])
        else let locs := map text (find_all "loc" (BeautifulSoup env body)) in
             (Ok locs, tr1 ++ [EvGet u; EvPrint (MsgFoundSitemaps (length locs))])
    end.
Proof.
  unfold get_monthly_sitemaps_body. run_unfold. cbn.
  destruct (requests_get env _ u) as [status body|e]; cbn.
  - destruct ((400 <=? status) && (status <? 600)); cbn;
      rewrite <- !app_assoc; reflexivity.
  - destruct (is_RequestException e); rewrite <- ?app_assoc; reflexivity.
Qed.

Lemma save_to_json_run env articles year month tr :
  save_to_json env articles year month tr =
    let filepath :=
      directory +:+ path_sep env +:+ "articles_" +:+ year +:+ "_" +:+ month
        +:+ ".json" in
    let write tr1 :=
      match open_fails env tr1 filepath with
      | Some e => (Ok tt, tr1 ++ [EvPrint (MsgFailedSave filepath e)])
      | None =>
          match dump_fails env (tr1 ++ [EvOpen filepath]) filepath articles with
          | Some e =>
              (Ok tt, tr1 ++ [EvOpen filepath;
                              EvPrint (MsgFailedSave filepath e)])
          | None =>
              (Ok tt, tr1 ++ [EvOpen filepath; EvWrite filepath articles;
                              EvPrint (MsgSaved (length articles) filepath)])
          end
      end in
    if path_exists env tr directory then write tr
    else if makedirs_ok env tr directory
         then write (tr ++ [EvMakedirs directory])
         else (Raise OSError, tr).
Proof.
  unfold save_to_json, makedirs, open_w, dump. run_unfold. cbn.
  rewrite filter_truthy.
  destruct (path_exists env tr directory); cbn.
  - destruct (open_fails env tr _); cbn; [reflexivity|].
    destruct (dump_fails env _ _ _); cbn; rewrite <- ?app_assoc; reflexivity.
  - destruct (makedirs_ok env tr directory); cbn; [|reflexivity].
    destruct (open_fails env _ _); cbn; [reflexivity|].
    destruct (dump_fails env _ _ _); cbn; rewrite <- ?app_assoc; reflexivity.
Qed.

(** ** The monitor *)

Section Monitor.

Variable max_articles : Z.

Lemma final_app m t1 t2 : final m (t1 ++ t2) = final (final m t1) t2.
Proof. unfold final. apply fold_left_app. Qed.

Lemma audit_app m t1 t2 :
  audit max_articles m (t1 ++ t2)
  <-> audit max_articles m t1 /\ audit max_articles (final m t1) t2.
Proof.
  revert m. induction t1 as [|e t1 IH]; intros m; simpl.
  - tauto.
  - rewrite IH. unfold final. simpl. tauto.
Qed.

(** Calm events leave the monitor as it is. *)
Lemma calm_final m d : Forall (fun e => calm e = true) d -> final m d = m.
Proof.
  induction 1 as [|e d He _ IH]; [reflexivity|].
  change (final m (e :: d)) with (final (observe m e) d).
  replace (observe m e) with m; [exact IH|].
  destruct e as [msg| | | | |]; try discriminate; auto.
  destruct msg; try discriminate; auto.
Qed.

(** Below the cap the monitor accepts them. *)
Lemma calm_passes m d :
  Forall (fun e => calm e = true) d -> seen m < max_articles ->
  audit max_articles m d.
Proof.
  intros Hd Hlt. induction Hd as [|e d He Hd IH]; [exact I|].
  assert (Hstep : allowed max_articles m e /\ observe m e = m).
  { destruct e as [msg| | | | |]; try discriminate; simpl; auto.
    destruct msg; try discriminate; simpl; auto. }
  destruct Hstep as [Ha Ho]. simpl. rewrite Ho. auto.
Qed.

(** They are neither writes nor lines of progress. *)
Lemma calm_silent d :
  Forall (fun e => calm e = true) d ->
  written d = [] /\ List.filter is_progress d = [].
Proof.
  induction 1 as [|e d He _ [IH1 IH2]]; [auto|].
  destruct e as [msg| | | | |]; try discriminate; simpl; auto.
  destruct msg; try discriminate; simpl; auto.
Qed.

(** At the cap the monitor accepts nothing but the events of a flush. *)
Lemma audit_at_cap m d :
  max_articles <= seen m -> audit max_articles m d ->
  Forall (fun e => is_closing e = true) d.
Proof.
  revert m. induction d as [|e d IH]; intros m Hcap Ha; [constructor|].
  destruct Ha as [Hal Hrest].
  assert (Hc : is_closing e = true /\ seen (observe m e) = seen m).
  { destruct e as [msg| | | | |]; simpl in *; try lia; auto.
    destruct msg; simpl in *; try lia; auto. }
  destruct Hc as [Hc Hs]. constructor; [exact Hc|].
  apply (IH (observe m e)); [lia | exact Hrest].
Qed.

(** A line of progress in an audited trace is within the cap, and from the
    line that reaches the cap on only a flush can follow. *)
Lemma audit_progress m d t1 n k t2 :
  audit max_articles m d -> d = t1 ++ EvPrint (MsgProgress n k) :: t2 ->
  n <= max_articles
  /\ (max_articles <= n -> Forall (fun e => is_closing e = true) t2).
Proof.
  intros Ha ->. apply audit_app in Ha. destruct Ha as [_ [Hal Hrest]].
  simpl in Hal. destruct Hal as (Hn & Hle & Hk). split; [exact Hle|].
  intros Hcap. eapply audit_at_cap; [|exact Hrest]. simpl. exact Hcap.
Qed.

(** The counter of the monitor counts the lines of progress. *)
Lemma audit_seen m t :
  audit max_articles m t ->
  seen (final m t) = seen m + Z.of_nat (length (List.filter is_progress t)).
Proof.
  revert m. induction t as [|e t IH]; intros m Ha.
  - simpl. lia.
  - destruct Ha as [Hal Hrest]. specialize (IH _ Hrest).
    change (final m (e :: t)) with (final (observe m e) t). rewrite IH.
    destruct e as [msg| | | | |p b]; simpl in *; try lia.
    destruct msg; simpl in *; lia.
Qed.

Lemma audit_seen_le m t :
  audit max_articles m t -> seen m <= max_articles ->
  seen (final m t) <= max_articles.
Proof.
  revert m. induction t as [|e t IH]; intros m Ha Hle; [exact Hle|].
  destruct Ha as [Hal Hrest].
  change (final m (e :: t)) with (final (observe m e) t).
  apply IH; [exact Hrest|].
  destruct e as [msg| | | | |p b]; simpl in *; try lia.
  destruct msg; simpl in *; lia.
Qed.

(** Without a failed write, what was written and what is still
    accumulated add up to the lines of progress. *)
Lemma audit_written m t :
  audit max_articles m t -> Forall (fun e => is_failed_save e = false) t ->
  (length (written t) + batch (final m t)
   = batch m + length (List.filter is_progress t))%nat.
Proof.
  revert m. induction t as [|e t IH]; intros m Ha Hf.
  - simpl. lia.
  - destruct Ha as [Hal Hrest]. inversion Hf as [|? ? He Hf']; subst.
    specialize (IH _ Hrest Hf').
    change (final m (e :: t)) with (final (observe m e) t).
    destruct e as [msg| | | | |p b]; simpl in *; try lia.
    + destruct msg; simpl in *; try lia; discriminate.
    + rewrite length_app. lia.
Qed.

End Monitor.

(** The batch of the monitor only shrinks at a flush. *)
Lemma batch_reset m t :
  (0 < batch m)%nat -> batch (final m t) = O ->
  Exists (fun e => is_flush e = true) t.
Proof.
  revert m. induction t as [|e t IH]; intros m Hpos H0; simpl in *.
  - unfold final in H0. simpl in H0. lia.
  - destruct (is_flush e) eqn:Hf; [now left|]. right.
    apply (IH (observe m e)); [|exact H0].
    destruct e as [msg| | | | |]; simpl in *; try lia; try discriminate.
    destruct msg; simpl in *; try lia; discriminate.
Qed.

(** What the monitor holds is what the trace shows since its last flush. *)
Lemma monitor_since_last_flush t :
  batch (final start t) = length (List.filter is_progress (since_last_flush t))
  /\ forall u, In u (scraped (final start t)) ->
               In (EvPrint (MsgScraping u)) (since_last_flush t).
Proof.
  unfold final, since_last_flush.
  cut (forall m recent,
          (batch m = length (List.filter is_progress recent)
           /\ forall u, In u (scraped m) -> In (EvPrint (MsgScraping u)) recent) ->
          batch (fold_left observe t m)
          = length (List.filter is_progress
                      (fold_left (fun recent e =>
                                    if is_flush e then [] else recent ++ [e]) t recent))
          /\ forall u, In u (scraped (fold_left observe t m)) ->
                       In (EvPrint (MsgScraping u))
                          (fold_left (fun recent e =>
                                        if is_flush e then [] else recent ++ [e]) t recent)).
  { intros H. apply H. split; [reflexivity|]. intros u []. }
  induction t as [|e t IH]; intros m recent [Hb Hs]; [split; assumption|].
  simpl. apply IH.
  assert (Hgrow : forall e,
             is_progress e = false ->
             batch m = length (List.filter is_progress (recent ++ [e]))
             /\ forall u, In u (scraped m) ->
                          In (EvPrint (MsgScraping u)) (recent ++ [e])).
  { intros e' He'. rewrite List.filter_app, length_app. simpl. rewrite He'.
    simpl. split; [lia|]. intros u Hu. apply in_or_app. left. auto. }
  destruct e as [msg| | | | |p b]; simpl; try (now apply Hgrow).
  - destruct msg; simpl; try (now apply Hgrow).
    + split; [apply (Hgrow (EvPrint (MsgScraping article_url)) eq_refl)|].
      intros u [<-|Hu]; apply in_or_app; [right; now left | left; auto].
    + split; [reflexivity | intros u []].
    + rewrite List.filter_app, length_app. simpl. split; [lia|].
      intros u Hu. apply in_or_app. left. auto.
  - split; [reflexivity | intros u []].
Qed.

(** ** Cutting a trace *)

Lemma written_app t1 t2 : written (t1 ++ t2) = written t1 ++ written t2.
Proof. unfold written. apply flat_map_app. Qed.

(** An event that is not calm lies behind a calm prefix. *)
Lemma split_after_calm (d0 d t1 t2 : list event) e :
  Forall (fun x => calm x = true) d0 -> calm e = false ->
  d0 ++ d = t1 ++ e :: t2 ->
  exists t1', t1 = d0 ++ t1' /\ d = t1' ++ e :: t2.
Proof.
  intros Hd0 He. revert t1. induction Hd0 as [|x d0 Hx _ IH]; intros t1 Heq.
  - exists t1. auto.
  - destruct t1 as [|y t1]; simpl in Heq.
    + injection Heq as -> _. congruence.
    + injection Heq as -> Heq. destruct (IH _ Heq) as (t1' & -> & ->).
      exists t1'. auto.
Qed.

(** The last event of a trace is the last event of what follows a cut,
    or the event at the cut. *)
Lemma split_before_last {A} (t t1 t2 : list A) x p :
  t ++ [x] = t1 ++ p :: t2 ->
  (t2 = [] /\ x = p) \/ exists t2', t2 = t2' ++ [x].
Proof.
  intros Heq. destruct t2 as [|y t2' _] using rev_ind.
  - left. split; [reflexivity|]. now apply app_inj_tail in Heq.
  - right. exists t2'.
    change (t1 ++ p :: t2' ++ [y]) with (t1 ++ (p :: t2') ++ [y]) in Heq.
    rewrite app_assoc in Heq. apply app_inj_tail in Heq.
    destruct Heq as [_ ->]. reflexivity.
Qed.

Lemma closing_not_get t :
  Forall (fun e => is_closing e = true) t -> forall u, ~ In (EvGet u) t.
Proof.
  intros H u Hin. rewrite Forall_forall in H.
  apply list_elem_of_In, H in Hin. discriminate.
Qed.

(** ** What the month key can raise *)

Lemma py_index_raises {A} (l : list A) i e :
  py_index l i = Raise e -> e = IndexError.
Proof.
  unfold py_index.
  destruct ((_ <? 0) || _); [congruence|].
  destruct (nth_error l _); congruence.
Qed.

Lemma month_key_raises u e : month_key u = Raise e -> e = IndexError.
Proof.
  unfold month_key. intros H.
  destruct (py_index (str_split "-" u) (-2)) eqn:H2; cbn in H.
  - destruct (py_index (str_split "-" u) (-1)) eqn:H1; cbn in H; [discriminate|].
    injection H as <-. eapply py_index_raises, H1.
  - injection H as <-. eapply py_index_raises, H2.
Qed.

(** ** The loops under the monitor *)

Section Crawl.

Variable env : Env.
Variable max_articles : Z.

(** The decorator around a call whose events are calm and which, when it
    raises, ends on the event [x]: the same holds of the decorated call,
    and what it raises is [RetryError]. *)
Lemma retry_from_calm {A} (call : Run A) (x : event) :
  (forall tr, exists r d,
      call tr = (r, tr ++ d)
      /\ Forall (fun e => calm e = true) d
      /\ (forall e, r = Raise e -> exists t, d = t ++ [x])) ->
  forall n k tr, exists r d,
    retry_from env k n call tr = (r, tr ++ d)
    /\ Forall (fun e => calm e = true) d
    /\ (forall e, r = Raise e -> e = RetryError /\ exists t, d = t ++ [x]).
Proof.
  intros Hcall n. induction n as [|n IH]; intros k tr; simpl.
  - destruct (Hcall tr) as (r & d & -> & Hd & Hx). destruct r as [a|e0].
    + exists (Ok a), d. repeat split; auto; discriminate.
    + exists (Raise RetryError), d. split; [reflexivity|]. split; [exact Hd|].
      intros e [= <-]. split; [reflexivity|]. now apply (Hx e0).
  - destruct (Hcall tr) as (r & d & -> & Hd & Hx). destruct r as [a|e0].
    + exists (Ok a), d. repeat split; auto; discriminate.
    + destruct (IH (S k) ((tr ++ d) ++ [EvSleep (wait_exponential env k)]))
        as (r' & d' & -> & Hd' & Hx').
      exists r', (d ++ EvSleep (wait_exponential env k) :: d').
      split; [|split].
      * f_equal. rewrite <- !app_assoc. reflexivity.
      * apply Forall_app. split; [exact Hd|].
        constructor; [reflexivity|exact Hd'].
      * intros e He. destruct (Hx' e He) as [-> [t ->]].
        split; [reflexivity|].
        exists (d ++ EvSleep (wait_exponential env k) :: t).
        now rewrite <- app_assoc.
Qed.

Lemma get_article_urls_calm u tr :
  exists r d,
    get_article_urls env u tr = (r, tr ++ d)
    /\ Forall (fun e => calm e = true) d
    /\ (forall e, r = Raise e -> e = RetryError /\ exists t, d = t ++ [EvGet u]).
Proof.
  unfold get_article_urls, retry. apply retry_from_calm. clear tr. intros tr.
  rewrite get_article_urls_body_run. cbn.
  destruct (requests_get env _ u) as [status body|e].
  - destruct ((400 <=? status) && (status <? 600));
      eexists _, _; rewrite <- app_assoc;
      (split; [reflexivity|]); (split; [repeat constructor|]); discriminate.
  - destruct (is_RequestException e); eexists _, _; rewrite <- app_assoc;
      (split; [reflexivity|]); (split; [repeat constructor|]);
      try discriminate.
    intros _ _. exists [EvPrint (MsgFetchingArticles u)]. reflexivity.
Qed.

Lemma get_monthly_sitemaps_calm u tr :
  exists r d,
    get_monthly_sitemaps env u tr = (r, tr ++ d)
    /\ Forall (fun e => calm e = true) d
    /\ (forall e, r = Raise e -> e = RetryError).
Proof.
  destruct (retry_from_calm (get_monthly_sitemaps_body env u) (EvGet u))
    with (n := 2%nat) (k := 1%nat) (tr := tr) as (r & d & H & Hd & He).
  - clear tr. intros tr. rewrite get_monthly_sitemaps_body_run. cbn.
    destruct (requests_get env _ u) as [status body|e].
    + destruct ((400 <=? status) && (status <? 600));
        eexists _, _; rewrite <- app_assoc;
        (split; [reflexivity|]); (split; [repeat constructor|]); discriminate.
    + destruct (is_RequestException e); eexists _, _; rewrite <- app_assoc;
        (split; [reflexivity|]); (split; [repeat constructor|]);
        try discriminate.
      intros _ _. exists [EvPrint (MsgFetchingIndex u)]. reflexivity.
  - exists r, d. split; [exact H|]. split; [exact Hd|].
    intros e Hr. now destruct (He e Hr).
Qed.

(** One call of [scrape]: it never raises; a record carries the address it
    was scraped from. *)
Lemma scrape_trace u tr :
  exists r d, scrape env u tr = (Ok r, tr ++ EvPrint (MsgScraping u) :: d)
              /\ Forall (fun e => calm e = true) d
              /\ (forall a, r = Some a -> url a = u).
Proof.
  rewrite scrape_is_body, scrape_body_run. cbn.
  destruct (requests_get env _ u) as [status body|e].
  - destruct ((400 <=? status) && (status <? 600)).
    + eexists _, _. rewrite <- app_assoc. split; [reflexivity|].
      split; [repeat constructor | discriminate].
    + destruct (build_article env u _) as [a|e] eqn:Hb.
      * eexists _, _. rewrite <- app_assoc. split; [reflexivity|].
        split; [repeat constructor|]. intros a' [= <-].
        unfold build_article in Hb.
        repeat match type of Hb with
               | (?c ≫= _) = Ok _ =>
                   let H := fresh in destruct c eqn:H; [cbn in Hb|discriminate]
               end.
        injection Hb as <-. reflexivity.
      * eexists _, _. rewrite <- app_assoc. split; [reflexivity|].
        split; [repeat constructor | discriminate].
  - eexists _, _. rewrite <- app_assoc. split; [reflexivity|].
    split; [repeat constructor | discriminate].
Qed.

(** The loop over the articles never raises; the monitor accepts what it
    does and ends in agreement with its state. *)
Lemma articles_loop_audit urls :
  forall st tr m, agrees m st ->
  exists st' d,
    articles_loop env max_articles urls st tr = (Ok st', tr ++ d)
    /\ audit max_articles m d /\ agrees (final m d) st'.
Proof.
  induction urls as [|u rest IH]; intros [acc c] tr m Hag; simpl.
  - exists (acc, c), []. rewrite app_nil_r. repeat split; try exact I; apply Hag.
  - destruct (max_articles <=? c) eqn:Hcap.
    + exists (acc, c), []. rewrite app_nil_r.
      repeat split; try exact I; apply Hag.
    + apply Z.leb_gt in Hcap. destruct Hag as (Hseen & Hbatch & Hurls).
      simpl in Hseen, Hbatch, Hurls.
      rewrite bind_run.
      destruct (scrape_trace u tr) as (r & d1 & -> & Hd1 & Hurl).
      set (m1 := observe m (EvPrint (MsgScraping u))).
      assert (Hm1 : seen m1 < max_articles) by (simpl; lia).
      pose proof (calm_passes max_articles m1 d1 Hd1 Hm1) as Ha1.
      pose proof (calm_final m1 d1 Hd1) as Hf1.
      destruct r as [a|].
      * rewrite bind_run. unfold print, emit. simpl fst. simpl snd.
        set (m2 := observe m1 (EvPrint (MsgProgress (c + 1) max_articles))).
        destruct (IH (acc ++ [a], c + 1)
                     ((tr ++ EvPrint (MsgScraping u) :: d1)
                        ++ [EvPrint (MsgProgress (c + 1) max_articles)]) m2)
          as (st' & d2 & Heq & Ha2 & Hag2).
        { repeat split; simpl.
          - rewrite length_app. simpl. lia.
          - apply Forall_app. split.
            + eapply Forall_impl; [exact Hurls|]. intros x Hx. now right.
            + constructor; [|constructor]. left. symmetry. now apply Hurl. }
        exists st', (EvPrint (MsgScraping u) :: d1
                       ++ EvPrint (MsgProgress (c + 1) max_articles) :: d2).
        split; [|split].
        -- rewrite Heq. f_equal. rewrite <- !app_assoc. reflexivity.
        -- change (audit max_articles m
                     ([EvPrint (MsgScraping u)] ++ d1
                        ++ [EvPrint (MsgProgress (c + 1) max_articles)] ++ d2)).
           rewrite !audit_app, ?final_app.
           change (final m [EvPrint (MsgScraping u)]) with m1. rewrite Hf1.
           change (final m1 [EvPrint (MsgProgress (c + 1) max_articles)]) with m2.
           repeat split; simpl; auto; lia.
        -- change (agrees
                     (final m ([EvPrint (MsgScraping u)] ++ d1
                        ++ [EvPrint (MsgProgress (c + 1) max_articles)] ++ d2))
                     st').
           rewrite !final_app. change (final m [EvPrint (MsgScraping u)]) with m1.
           rewrite Hf1. exact Hag2.
      * destruct (IH (acc, c) (tr ++ EvPrint (MsgScraping u) :: d1) m1)
          as (st' & d2 & Heq & Ha2 & Hag2).
        { repeat split; simpl; auto.
          eapply Forall_impl; [exact Hurls|]. intros x Hx. now right. }
        exists st', (EvPrint (MsgScraping u) :: d1 ++ d2).
        split; [|split].
        -- rewrite Heq. f_equal. rewrite <- !app_assoc. reflexivity.
        -- change (audit max_articles m ([EvPrint (MsgScraping u)] ++ d1 ++ d2)).
           rewrite !audit_app, ?final_app.
           change (final m [EvPrint (MsgScraping u)]) with m1. rewrite Hf1.
           repeat split; simpl; auto; lia.
        -- change (agrees (final m ([EvPrint (MsgScraping u)] ++ d1 ++ d2)) st').
           rewrite !final_app. change (final m [EvPrint (MsgScraping u)]) with m1.
           rewrite Hf1. exact Hag2.
Qed.

(** The flush statement: it hands the whole accumulator to the writer and
    leaves the empty accumulator, or raises on the way without an event. *)
Lemma flush_audit u acc c tr m :
  agrees m (acc, c) ->
  exists r d,
    flush env u acc tr = (r, tr ++ d)
    /\ audit max_articles m d
    /\ match r with
       | Ok acc' => acc' = [] /\ agrees (final m d) ([], c)
       | Raise e => (e = IndexError \/ e = OSError) /\ d = []
       end.
Proof.
  intros (Hseen & Hbatch & Hurls). simpl in Hseen, Hbatch, Hurls.
  destruct acc as [|a acc].
  - exists (Ok []), []. rewrite app_nil_r. simpl.
    repeat split; auto.
  - unfold flush. rewrite bind_run. unfold lift.
    destruct (month_key u) as [key|e] eqn:Hk.
    + rewrite bind_run, save_to_json_run. cbn zeta.
      destruct (path_exists env tr directory).
      * destruct (open_fails env tr _); [|destruct (dump_fails env _ _ _)];
          eexists (Ok []), _; (split; [reflexivity|]); simpl;
          repeat split; auto.
      * destruct (makedirs_ok env tr directory).
        -- destruct (open_fails env _ _); [|destruct (dump_fails env _ _ _)];
             eexists (Ok []), _; rewrite <- app_assoc;
             (split; [reflexivity|]); simpl; repeat split; auto.
        -- exists (Raise OSError), []. rewrite app_nil_r. simpl. auto.
    + exists (Raise e), []. rewrite app_nil_r. simpl.
      split; [reflexivity|]. split; [exact I|]. split; [|reflexivity].
      left. eapply month_key_raises, Hk.
Qed.

(** The loop over the months, started with the empty accumulator: it
    returns with the empty accumulator, or the flush raised, or a fetch of
    a monthly sitemap raised and its request is the last event. *)
Lemma months_loop_audit sitemaps :
  forall c tr m, agrees m ([], c) ->
  exists r d,
    months_loop env max_articles sitemaps ([], c) tr = (r, tr ++ d)
    /\ audit max_articles m d
    /\ match r with
       | Ok st' => st'.1 = [] /\ agrees (final m d) st'
       | Raise e =>
           e = IndexError \/ e = OSError
           \/ (e = RetryError /\ exists t u, d = t ++ [EvGet u])
       end.
Proof.
  induction sitemaps as [|u rest IH]; intros c tr m Hag; simpl.
  - exists (Ok ([], c)), []. rewrite app_nil_r. simpl. auto.
  - destruct (max_articles <=? c) eqn:Hcap.
    + exists (Ok ([], c)), []. rewrite app_nil_r. simpl. auto.
    + apply Z.leb_gt in Hcap. rewrite bind_run.
      destruct (get_article_urls_calm u tr) as (r0 & d0 & Hget & Hd0 & Hr0).
      assert (Hm : seen m < max_articles) by (destruct Hag as [-> _]; simpl; lia).
      pose proof (calm_passes max_articles m d0 Hd0 Hm) as Ha0.
      pose proof (calm_final m d0 Hd0) as Hf0.
      rewrite Hget. destruct r0 as [urls|e].
      * rewrite bind_run.
        destruct (articles_loop_audit urls ([], c) (tr ++ d0) m Hag)
          as ([acc1 c1] & d1 & -> & Ha1 & Hag1).
        rewrite bind_run. simpl fst. simpl snd.
        destruct (flush_audit u acc1 c1 ((tr ++ d0) ++ d1) (final m d1) Hag1)
          as (r2 & d2 & -> & Ha2 & Hr2).
        destruct r2 as [acc2|e].
        -- destruct Hr2 as [-> Hag2].
           destruct (IH c1 (((tr ++ d0) ++ d1) ++ d2) (final (final m d1) d2) Hag2)
             as (r3 & d3 & -> & Ha3 & Hr3).
           exists r3, (d0 ++ d1 ++ d2 ++ d3). split; [|split].
           ++ f_equal. rewrite <- !app_assoc. reflexivity.
           ++ rewrite !audit_app, ?final_app, ?Hf0. auto.
           ++ rewrite !final_app, Hf0. destruct r3 as [st3|e]; [exact Hr3|].
              destruct Hr3 as [H|[H|(H & t & u' & ->)]]; auto.
              right. right. split; [exact H|].
              exists (d0 ++ d1 ++ d2 ++ t), u'. now rewrite <- !app_assoc.
        -- exists (Raise e), (d0 ++ d1 ++ d2). split; [|split].
           ++ f_equal. rewrite <- !app_assoc. reflexivity.
           ++ rewrite !audit_app, ?final_app, ?Hf0. auto.
           ++ destruct Hr2 as [[H|H] _]; auto.
      * exists (Raise e), d0. split; [reflexivity|]. split; [exact Ha0|].
        right. right. destruct (Hr0 e eq_refl) as [-> [t ->]]. eauto.
Qed.

(** [main] under the monitor: the fetch of the index comes first, the
    monitor reads the rest. *)
Lemma main_with_audit :
  exists r d0 d,
    main_with env max_articles [] = (r, d0 ++ d)
    /\ Forall (fun e => calm e = true) d0
    /\ audit max_articles start d
    /\ match r with
       | Ok _ =>
           exists d' c, d = d' ++ [EvPrint (MsgComplete c)]
                        /\ agrees (final start d') ([], c)
       | Raise e =>
           e = IndexError \/ e = OSError
           \/ (e = RetryError /\ (d = [] \/ exists t u, d = t ++ [EvGet u]))
       end.
Proof.
  unfold main_with. rewrite bind_run.
  destruct (get_monthly_sitemaps_calm sitemap_index_url [])
    as (r0 & d0 & -> & Hd0 & Hr0).
  simpl app. destruct r0 as [sitemaps|e].
  - rewrite bind_run.
    destruct (months_loop_audit sitemaps 0 d0 start)
      as (r & d & -> & Ha & Hr).
    { repeat split; constructor. }
    destruct r as [[acc c]|e].
    + destruct Hr as [Hacc Hag]. simpl in Hacc. subst acc.
      exists (Ok tt), d0, (d ++ [EvPrint (MsgComplete c)]).
      split; [|split; [exact Hd0|split]].
      * unfold print, emit. simpl. now rewrite app_assoc.
      * apply audit_app. split; [exact Ha|]. simpl. auto.
      * eauto.
    + exists (Raise e), d0, d.
      split; [reflexivity|]. split; [exact Hd0|]. split; [exact Ha|].
      destruct Hr as [H|[H|[H Hd]]]; auto.
  - exists (Raise e), d0, []. rewrite app_nil_r.
    split; [reflexivity|]. split; [exact Hd0|]. split; [exact I|].
    right. right. split; [now apply Hr0 | now left].
Qed.

End Crawl.

(** ** The cap *)

(** X16.  In every run of [main], with any cap that is not negative: each
    line of progress reports a counter within the cap; from the line that
    reaches the cap on no request is issued and only the events of the
    flush and the closing line follow, and a flush (a write, or the report
    of a write that failed) does follow unless the flush statement itself
    raised; if the run returns, it ends with the counter within the cap
    and, unless a write failed, the number of records written is the
    counter. *)
Theorem cap_never_exceeded env max_articles r tr :
  0 <= max_articles ->
  main_with env max_articles [] = (r, tr) ->
  (forall t1 n k t2,
      tr = t1 ++ EvPrint (MsgProgress n k) :: t2 ->
      n <= max_articles
      /\ (max_articles <= n ->
          (forall u, ~ In (EvGet u) t2)
          /\ Forall (fun e => is_closing e = true) t2
          /\ (Exists (fun e => is_flush e = true) t2
              \/ r = Raise IndexError \/ r = Raise OSError)))
  /\ (r = Ok tt ->
      exists t c,
        tr = t ++ [EvPrint (MsgComplete c)]
        /\ 0 <= c <= max_articles
        /\ c = Z.of_nat (length (List.filter is_progress tr))
        /\ (Forall (fun e => is_failed_save e = false) tr ->
            Z.of_nat (length (written tr)) = c)).
Proof.
  intros Hmax Hrun.
  destruct (main_with_audit env max_articles) as (r' & d0 & d & Heq & Hd0 & Ha & Hr).
  rewrite Hrun in Heq. injection Heq as <- ->. split.
  - intros t1 n k t2 Hsplit.
    destruct (split_after_calm d0 d t1 t2 (EvPrint (MsgProgress n k))
                Hd0 eq_refl Hsplit) as (t1' & -> & Hd).
    destruct (audit_progress _ _ _ _ _ _ _ Ha Hd) as [Hle Hcap].
    split; [exact Hle|]. intros Hn. specialize (Hcap Hn).
    split; [now apply closing_not_get|]. split; [exact Hcap|].
    destruct r as [[]|e].
    + left. destruct Hr as (d' & c & Hd' & Hag).
      destruct Hag as (_ & Hb & _). simpl in Hb.
      assert (Hfin : batch (final start d) = O).
      { rewrite Hd', final_app. exact Hb. }
      rewrite Hd in Hfin.
      change (t1' ++ EvPrint (MsgProgress n k) :: t2)
        with (t1' ++ [EvPrint (MsgProgress n k)] ++ t2) in Hfin.
      rewrite app_assoc, final_app in Hfin.
      eapply batch_reset; [|exact Hfin].
      rewrite final_app. simpl. lia.
    + right. destruct Hr as [->|[->|(_ & [Hnil|(t & u & Hlast)])]]; auto; exfalso.
      * rewrite Hnil in Hd. now destruct t1'.
      * rewrite Hlast in Hd.
        destruct (split_before_last _ _ _ _ _ Hd) as [[_ Heq]|[t2' ->]];
          [discriminate Heq|].
        apply (closing_not_get _ Hcap u). apply in_or_app. right. now left.
  - intros ->. destruct Hr as (d' & c & -> & Hag).
    destruct Hag as (Hs & Hb & _). simpl in Hs, Hb.
    apply audit_app in Ha. destruct Ha as [Ha _].
    destruct (calm_silent d0 Hd0) as [Hw0 Hp0].
    assert (Hcount : List.filter is_progress (d0 ++ d' ++ [EvPrint (MsgComplete c)])
                     = List.filter is_progress d').
    { rewrite !List.filter_app, Hp0. simpl. now rewrite app_nil_r. }
    exists (d0 ++ d'), c. split; [now rewrite app_assoc|].
    pose proof (audit_seen _ _ _ Ha) as Hseen. rewrite Hs in Hseen. simpl in Hseen.
    pose proof (audit_seen_le _ _ _ Ha Hmax) as Hle. rewrite Hs in Hle.
    split; [lia|]. split; [rewrite Hcount; lia|].
    intros Hnf. rewrite !written_app, Hw0. simpl. rewrite app_nil_r.
    apply Forall_app in Hnf. destruct Hnf as [_ Hnf].
    apply Forall_app in Hnf. destruct Hnf as [Hnf _].
    pose proof (audit_written _ _ _ Ha Hnf) as Hw. rewrite Hb in Hw. simpl in Hw. lia.
Qed.

(** ** The accumulator *)

(** C6.  A flush that returns leaves the empty accumulator; and in every
    run of [main] a batch that is written holds as many records as were
    accumulated since the flush before it, each of them scraped since
    that flush: nothing that was flushed before is written again. *)
Theorem flush_clears_accumulator env max_articles :
  (forall sitemap_url articles tr articles' tr',
      flush env sitemap_url articles tr = (Ok articles', tr') -> articles' = [])
  /\ (forall r tr t1 filepath b t2,
         main_with env max_articles [] = (r, tr) ->
         tr = t1 ++ EvWrite filepath b :: t2 ->
         length b = length (List.filter is_progress (since_last_flush t1))
         /\ Forall (fun a => In (EvPrint (MsgScraping (url a)))
                                (since_last_flush t1)) b).
Proof.
  split.
  - intros u acc tr acc' tr' H.
    destruct (flush_audit env 0 u acc 0 tr
                {| seen := 0; batch := length acc; scraped := map url acc |})
      as (r & d & Heq & _ & Hr).
    { split; [reflexivity|]. split; [reflexivity|]. simpl.
      apply Forall_forall. intros a Ha. apply in_map, list_elem_of_In, Ha. }
    rewrite H in Heq. injection Heq as <- _. apply Hr.
  - intros r tr t1 p b t2 Hrun Hsplit.
    destruct (main_with_audit env max_articles) as (r' & d0 & d & Heq & Hd0 & Ha & _).
    rewrite Hrun in Heq. injection Heq as <- ->.
    destruct (split_after_calm d0 d t1 t2 (EvWrite p b) Hd0 eq_refl Hsplit)
      as (t1' & -> & ->).
    apply audit_app in Ha. destruct Ha as [_ [[Hlen Hurls] _]].
    replace (final start t1') with (final start (d0 ++ t1')) in Hlen, Hurls
      by (rewrite final_app; now rewrite (calm_final start d0 Hd0)).
    destruct (monitor_since_last_flush (d0 ++ t1')) as [Hb Hs].
    split; [congruence|].
    eapply Forall_impl; [exact Hurls|]. intros a. apply Hs.
Qed.
(** ** Extraction *)

Lemma build_article_dict env u soup d :
  load_metadata env (find "script" metadata_attrs soup) = Ok (PyDict d) ->
  build_article env u soup =
    (kw ← py_split_space (default (PyStr "") (d !! "keywords"));
     wc ← py_int (interpreter env) (default (PyInt 0) (d !! "word_count"));
     Ok {| url := u;
           post_id := default (PyStr "") (d !! "postid");
           title := default (PyStr "") (d !! "title");
           keywords := kw;
           thumbnail := default (PyStr "") (d !! "thumbnail");
           publication_date := default (PyStr "") (d !! "published_time");
           last_updated_date := default (PyStr "") (d !! "last_updated");
           author := default (PyStr "") (d !! "author");
           content := paragraphs_text soup;
           video_duration := default (PyStr "") (d !! "video_duration");
           word_count := wc;
           description := default (PyStr "") (d !! "description");
           lang := default (PyStr "") (d !! "lang");
           classes := default (PyList []) (d !! "classes");
           lite_url := default (PyStr "") (d !! "lite_url") |}).
Proof.
  intros H. unfold build_article. rewrite H. reflexivity.
Qed.

(** A record is only built from a metadata value that is a dict. *)
Lemma build_article_needs_dict env u soup a :
  build_article env u soup = Ok a ->
  exists d, load_metadata env (find "script" metadata_attrs soup) = Ok (PyDict d).
Proof.
  unfold build_article.
  destruct (load_metadata env _) as [m|e]; [|discriminate].
  destruct m; try discriminate. eauto.
Qed.

(** With the empty metadata object every field but [keywords] has the
    default of the table; [keywords] is the split of the empty string. *)
Lemma build_article_empty_metadata env u soup :
  load_metadata env (find "script" metadata_attrs soup) = Ok (PyDict ∅) ->
  build_article env u soup =
    Ok {| url := u; post_id := PyStr ""; title := PyStr ""; keywords := [""];
          thumbnail := PyStr ""; publication_date := PyStr "";
          last_updated_date := PyStr ""; author := PyStr "";
          content := paragraphs_text soup;
          video_duration := PyStr ""; word_count := 0; description := PyStr "";
          lang := PyStr ""; classes := PyList []; lite_url := PyStr "" |}.
Proof.
  intros H. unfold build_article. rewrite H. reflexivity.
Qed.

(** C1.  The page whose metadata script holds the empty object [{}]:
    [scrape] returns a record, every copied field has its default, the
    word count is 0 and the classes are the empty list, but the keywords
    are the list with the empty string in it, not the empty list. *)
Theorem empty_metadata_keywords :
  exists a tr,
    scrape (Demo.env_of Scenario.crawl) Scenario.first [] = (Ok (Some a), tr)
    /\ find "script" metadata_attrs Scenario.empty_page
       = Some (Demo.metadata_script "{}")
    /\ post_id a = PyStr "" /\ title a = PyStr "" /\ thumbnail a = PyStr ""
    /\ publication_date a = PyStr "" /\ last_updated_date a = PyStr ""
    /\ author a = PyStr "" /\ video_duration a = PyStr ""
    /\ description a = PyStr "" /\ lang a = PyStr "" /\ lite_url a = PyStr ""
    /\ word_count a = 0 /\ classes a = PyList []
    /\ keywords a = [""] /\ keywords a <> [].
Proof.
  eexists _, _. split; [vm_compute; reflexivity|].
  split; [vm_compute; reflexivity|].
  repeat (split; [reflexivity|]). discriminate.
Qed.

(** The metadata the program loads is the metadata embedded in the
    page. *)
Lemma load_metadata_embedded env soup v :
  load_metadata env (find "script" metadata_attrs soup) = Ok v
  <-> embedded_metadata env soup = Some v.
Proof.
  unfold load_metadata, embedded_metadata.
  destruct (find "script" metadata_attrs soup) as [tag|].
  - destruct (dot_string tag) as [s|]; [|split; discriminate].
    destruct (json_loads env s); split; congruence.
  - split; congruence.
Qed.

(** [int] at work in CPython 3.11: white space around the numeral and
    single underscores inside it are accepted, and so are the decimal
    digits and the white space of other scripts; the separators U+001C to
    U+001F are white space for [str.split] and not for [int]; a numeral of
    more than 4300 digits is refused unless the limit is switched off. *)
Example int_of_str_at_work :
  let int := int_of_str Demo.cpython in
  let accepted s := match int s with Ok _ => true | Raise _ => false end in
  int " 12 " = Ok 12
  /\ int "-1_000" = Ok (-1000)
  /\ int "١٢٣" = Ok 123
  /\ int (String "194" (String "160" "12")) = Ok 12
  /\ int (String "028" "12") = Raise ValueError
  /\ length (str_split_ws (String "028" "12")) = 1%nat
  /\ int "1__0" = Raise ValueError
  /\ int "12_" = Raise ValueError
  /\ int "+-1" = Raise ValueError
  /\ int "12.0" = Raise ValueError
  /\ int "" = Raise ValueError
  /\ accepted (Scenario.ones 4300) = true
  /\ int (Scenario.ones 4301) = Raise ValueError
  /\ match int_of_str {| unicode_decimal := unicode_decimal Demo.cpython;
                         int_max_str_digits := 0 |} (Scenario.ones 4301) with
     | Ok _ => True
     | Raise _ => False
     end.
Proof. vm_compute. repeat split. Qed.

(** A count that is written as a string. *)
Example numeral_word_count :
  build_article (Demo.env_of Scenario.crawl_numeral) Scenario.first
    Scenario.numeral_page
  = Ok {| url := Scenario.first; post_id := PyStr ""; title := PyStr "";
          keywords := [""]; thumbnail := PyStr "";
          publication_date := PyStr ""; last_updated_date := PyStr "";
          author := PyStr ""; content := "Body" +:+ newline;
          video_duration := PyStr ""; word_count := 450;
          description := PyStr ""; lang := PyStr ""; classes := PyList [];
          lite_url := PyStr "" |}.
Proof. vm_compute. reflexivity. Qed.

(** C3.  A page that is fetched and whose metadata script decodes to an
    object with a [word_count] that [int] rejects: no record is built,
    [scrape] returns [None] after one request and a line about the
    failure, and the loop over the article addresses goes on with the next
    address, the accumulator and the counter unchanged. *)
Theorem bad_word_count_is_skipped
    env max_articles article_url rest st tr status body tag s d v e :
  requests_get env (tr ++ [EvPrint (MsgScraping article_url)]) article_url
    = Response status body ->
  (400 <=? status) && (status <? 600) = false ->
  find "script" metadata_attrs (BeautifulSoup env body) = Some tag ->
  dot_string tag = Some s ->
  json_loads env s = Some (PyDict d) ->
  d !! "word_count" = Some v ->
  py_int (interpreter env) v = Raise e ->
  exists e',
    let tr' := tr ++ [EvPrint (MsgScraping article_url); EvGet article_url;
                      EvPrint (MsgFailedScrape article_url e')] in
    build_article env article_url (BeautifulSoup env body) = Raise e'
    /\ scrape env article_url tr = (Ok None, tr')
    /\ (st.2 < max_articles ->
        articles_loop env max_articles (article_url :: rest) st tr
        = articles_loop env max_articles rest st tr').
Proof.
  intros Hget Hstatus Hfind Hstring Hjson Hv Hint.
  assert (Hmeta : load_metadata env
                    (find "script" metadata_attrs (BeautifulSoup env body))
                  = Ok (PyDict d)).
  { unfold load_metadata. now rewrite Hfind, Hstring, Hjson. }
  assert (Hb : exists e', build_article env article_url (BeautifulSoup env body)
                          = Raise e').
  { rewrite (build_article_dict _ _ _ _ Hmeta), Hv. simpl. rewrite Hint.
    destruct (py_split_space _); simpl; eauto. }
  destruct Hb as [e' Hb]. exists e'. cbn zeta.
  assert (Hs : scrape env article_url tr
               = (Ok None,
                  tr ++ [EvPrint (MsgScraping article_url); EvGet article_url;
                         EvPrint (MsgFailedScrape article_url e')])).
  { rewrite scrape_is_body, scrape_body_run. cbn zeta.
    rewrite Hget, Hstatus, Hb, <- app_assoc. reflexivity. }
  split; [exact Hb|]. split; [exact Hs|].
  intros Hlt. simpl. destruct (max_articles <=? st.2) eqn:Hcap.
  - apply Z.leb_le in Hcap. lia.
  - rewrite bind_run, Hs. reflexivity.
Qed.

Lemma bad_word_count_is_skipped_witness :
  exists e',
    scrape (Demo.env_of Scenario.crawl_abc) Scenario.second []
    = (Ok None,
       [EvPrint (MsgScraping Scenario.second); EvGet Scenario.second;
        EvPrint (MsgFailedScrape Scenario.second e')]).
Proof.
  destruct (bad_word_count_is_skipped
              (Demo.env_of Scenario.crawl_abc) 10000 Scenario.second []
              ([], 0) [] 200 (Demo.document Scenario.abc_page)
              (Demo.metadata_script Scenario.abc_json) Scenario.abc_json
              (<["word_count" := PyStr "abc"]> ∅) (PyStr "abc") ValueError)
    as (e' & _ & H & _).
  - vm_compute. reflexivity.
  - reflexivity.
  - vm_compute. reflexivity.
  - reflexivity.
  - vm_compute. reflexivity.
  - vm_compute. reflexivity.
  - vm_compute. reflexivity.
  - exists e'. exact H.
Defined.

(** *** What [int] makes of a numeral *)

Lemma char_code_bound c : 0 <= char_code c < 256.
Proof.
  unfold char_code. pose proof (nat_ascii_bounded c). lia.
Qed.

Lemma digit_of_code c d :
  digit_of c = Some d ->
  is_digit (char_code c) = true /\ d = char_code c - 48 /\ 0 <= d <= 9.
Proof.
  unfold digit_of, is_digit, char_code.
  destruct ((48 <=? _) && (_ <=? 57)) eqn:H; [|discriminate].
  intros [= <-]. apply andb_true_iff in H. destruct H as [H1 H2].
  apply Z.leb_le in H1. apply Z.leb_le in H2. auto with zarith.
Qed.

(** The characters of a string of digits are their own code points. *)
Lemma code_points_digits s v :
  digits_value s = Some v ->
  code_points_from 0 0 s = map char_code (list_ascii_of_string s).
Proof.
  revert v. induction s as [|c s IH]; intros v; [reflexivity|]. simpl.
  destruct (digit_of c) as [d|] eqn:Hd; [|discriminate].
  destruct (digits_value s) as [v'|]; [|discriminate]. intros _.
  destruct (digit_of_code _ _ Hd) as (Hc & _ & _).
  unfold is_digit in Hc. apply andb_true_iff in Hc. destruct Hc as [H1 H2].
  apply Z.leb_le in H2. fold (char_code c).
  replace (char_code c <? 128) with true by (symmetry; apply Z.ltb_lt; lia).
  f_equal. eapply IH. reflexivity.
Qed.

Lemma digits_are_ascii s v :
  digits_value s = Some v ->
  forallb (fun ch => ch <? 128) (map char_code (list_ascii_of_string s)) = true.
Proof.
  revert v. induction s as [|c s IH]; intros v; [reflexivity|]. simpl.
  destruct (digit_of c) as [d|] eqn:Hd; [|discriminate].
  destruct (digits_value s) as [v'|]; [|discriminate]. intros _.
  destruct (digit_of_code _ _ Hd) as (Hc & _ & _).
  unfold is_digit in Hc. apply andb_true_iff in Hc. destruct Hc as [H1 H2].
  apply Z.leb_le in H2.
  replace (char_code c <? 128) with true by (symmetry; apply Z.ltb_lt; lia).
  eapply IH. reflexivity.
Qed.

(** The scan of a string of digits adds what the digits denote to the
    value so far, moved up by their number of places. *)
Lemma scan_digits_value s : forall v value digits,
  digits_value s = Some v ->
  scan_digits (map char_code (list_ascii_of_string s)) value digits false
  = Some (value * 10 ^ Z.of_nat (String.length s) + v,
          digits + Z.of_nat (String.length s), []).
Proof.
  induction s as [|c s IH]; intros v value digits.
  - intros [= <-]. simpl. f_equal. f_equal. f_equal; lia.
  - simpl digits_value.
    destruct (digit_of c) as [d|] eqn:Hd; [|discriminate].
    destruct (digits_value s) as [v'|] eqn:Hv; [|discriminate].
    intros [= <-]. destruct (digit_of_code _ _ Hd) as (Hc & -> & _).
    simpl list_ascii_of_string. simpl map. simpl scan_digits. rewrite Hc.
    rewrite (IH v' _ _ eq_refl). f_equal. f_equal. f_equal.
    + change (String.length (String c s)) with (S (String.length s)).
      rewrite Nat2Z.inj_succ, Z.pow_succ_r by lia. ring.
    + change (String.length (String c s)) with (S (String.length s)). lia.
Qed.

Lemma digits_value_first c s v :
  digits_value (String c s) = Some v ->
  is_digit (char_code c) = true.
Proof.
  simpl. destruct (digit_of c) as [d|] eqn:Hd; [|discriminate].
  intros _. now destruct (digit_of_code _ _ Hd).
Qed.

Lemma digit_is_plain ch :
  is_digit ch = true ->
  is_space ch = false /\ (ch =? 43) = false /\ (ch =? 45) = false
  /\ (ch =? 95) = false.
Proof.
  unfold is_digit, is_space. intros H. apply andb_true_iff in H.
  destruct H as [H1 H2]. apply Z.leb_le in H1. apply Z.leb_le in H2.
  repeat split; try (apply Z.eqb_neq; lia).
  apply orb_false_iff. split; [apply Z.eqb_neq; lia|].
  apply andb_false_iff. right. apply Z.leb_gt. lia.
Qed.

(** [int] of digits, at least one and at most 640, is what they denote,
    whatever the interpreter. *)
Lemma long_from_scanned py x l value digits (negative : bool) :
  is_digit x = true ->
  scan_digits (x :: l) 0 0 false = Some (value, digits, []) ->
  0 < digits <= 640 ->
  long_from_string py (if negative then 45 :: x :: l else x :: l)
  = Ok (if negative then - value else value).
Proof.
  intros Hx Hscan Hdigits.
  destruct (digit_is_plain _ Hx) as (Hsp & Hplus & Hminus & Hunder).
  assert (Hlimit : (640 <? digits) = false) by (apply Z.ltb_ge; lia).
  assert (Hsome : (digits =? 0) = false) by (apply Z.eqb_neq; lia).
  unfold long_from_string. destruct negative.
  - cbn [skip_spaces]. change (is_space 45) with false. cbv beta iota zeta.
    change (45 =? 43) with false. change (45 =? 45) with true.
    cbv beta iota. rewrite Hunder, Hscan, Hlimit, Hsome. reflexivity.
  - cbn [skip_spaces]. rewrite Hsp. cbv beta iota zeta.
    rewrite Hplus, Hminus. cbv beta iota.
    rewrite Hunder, Hscan, Hlimit, Hsome. reflexivity.
Qed.

Lemma long_from_digits py c s v :
  digits_value (String c s) = Some v ->
  (String.length (String c s) <= 640)%nat ->
  forall negative,
  (let digits := map char_code (list_ascii_of_string (String c s)) in
   long_from_string py (if negative : bool then 45 :: digits else digits))
  = Ok (if negative then - v else v).
Proof.
  intros Hv Hlen negative. cbn zeta.
  pose proof (digits_value_first _ _ _ Hv) as Hc.
  pose proof (scan_digits_value _ _ 0 0 Hv) as Hscan.
  simpl list_ascii_of_string in *. simpl map in *.
  rewrite Z.mul_0_l, !Z.add_0_l in Hscan.
  apply (long_from_scanned py _ _ _ _ negative Hc Hscan).
  simpl String.length in *. lia.
Qed.

(** [int] of a numeral of at most 640 characters is the integer the
    numeral denotes. *)
Lemma py_int_numeral py w n :
  integer_of_numeral w = Some n ->
  (String.length w <= 640)%nat ->
  py_int py (PyStr w) = Ok n.
Proof.
  unfold integer_of_numeral. destruct w as [|c w]; [discriminate|].
  destruct (Ascii.eqb c "-") eqn:Hc.
  - apply Ascii.eqb_eq in Hc. subst c.
    destruct w as [|c w]; [discriminate|].
    destruct (digits_value (String c w)) as [v|] eqn:Hv; [|discriminate].
    intros [= <-] Hlen. simpl py_int. unfold int_of_str, code_points.
    change (code_points_from 0 0 (String "-" (String c w)))
      with (45 :: code_points_from 0 0 (String c w)).
    rewrite (code_points_digits _ _ Hv). unfold ascii_decimal.
    change (forallb (fun ch => ch <? 128) (45 :: ?l))
      with (forallb (fun ch => ch <? 128) l).
    rewrite (digits_are_ascii _ _ Hv).
    apply (long_from_digits py c w v Hv) with (negative := true).
    simpl String.length in *. lia.
  - intros Hv Hlen. simpl py_int. unfold int_of_str, code_points.
    rewrite (code_points_digits _ _ Hv). unfold ascii_decimal.
    rewrite (digits_are_ascii _ _ Hv).
    apply (long_from_digits py c w n Hv Hlen) with (negative := false).
Qed.

(** C10.  The word count of a record is the [int] of the value the
    metadata embedded in the page has under [word_count]: that very
    integer when the value is an integer, the integer a numeral denotes
    when the value is a string that spells one, and 0 when the key is
    missing.  So two pages with the same embedded metadata get the same
    word count, whatever their paragraphs. *)
Theorem word_count_from_metadata env u1 u2 soup1 soup2 a1 a2 :
  embedded_metadata env soup1 = embedded_metadata env soup2 ->
  build_article env u1 soup1 = Ok a1 ->
  build_article env u2 soup2 = Ok a2 ->
  word_count a1 = word_count a2
  /\ exists d,
       embedded_metadata env soup1 = Some (PyDict d)
       /\ py_int (interpreter env) (default (PyInt 0) (d !! "word_count"))
          = Ok (word_count a1)
       /\ (d !! "word_count" = None -> word_count a1 = 0)
       /\ (forall n, d !! "word_count" = Some (PyInt n) -> word_count a1 = n)
       /\ (forall w n,
             d !! "word_count" = Some (PyStr w) ->
             integer_of_numeral w = Some n ->
             (String.length w <= 640)%nat ->
             word_count a1 = n).
Proof.
  intros Hsame H1 H2.
  destruct (build_article_needs_dict _ _ _ _ H1) as [d Hd].
  assert (Hwc : forall u soup a,
             load_metadata env (find "script" metadata_attrs soup) = Ok (PyDict d) ->
             build_article env u soup = Ok a ->
             py_int (interpreter env) (default (PyInt 0) (d !! "word_count"))
             = Ok (word_count a)).
  { intros u soup a Hm Hb. rewrite (build_article_dict _ _ _ _ Hm) in Hb.
    destruct (py_split_space _); [|discriminate]. simpl in Hb.
    destruct (py_int _ _); [|discriminate]. simpl in Hb.
    injection Hb as <-. reflexivity. }
  pose proof (Hwc _ _ _ Hd H1) as W1.
  apply load_metadata_embedded in Hd.
  assert (Hd2 : embedded_metadata env soup2 = Some (PyDict d)) by congruence.
  apply load_metadata_embedded in Hd2.
  pose proof (Hwc _ _ _ Hd2 H2) as W2.
  split; [congruence|].
  exists d. split; [exact Hd|]. split; [exact W1|]. split; [|split].
  - intros Hnone. rewrite Hnone in W1. simpl in W1. congruence.
  - intros n Hn. rewrite Hn in W1. simpl in W1. congruence.
  - intros w n Hw Hn Hlen. rewrite Hw in W1. simpl default in W1.
    rewrite (py_int_numeral _ _ _ Hn Hlen) in W1. congruence.
Qed.

Lemma word_count_from_metadata_witness :
  exists a1 a2,
    build_article (Demo.env_of Scenario.crawl) Scenario.third Scenario.seven_page
    = Ok a1
    /\ build_article (Demo.env_of Scenario.crawl) Scenario.first Scenario.seven_page'
       = Ok a2
    /\ content a1 <> content a2
    /\ word_count a1 = 7 /\ word_count a2 = 7.
Proof.
  destruct (build_article (Demo.env_of Scenario.crawl) Scenario.third
              Scenario.seven_page) as [a1|e1] eqn:H1;
    [|vm_compute in H1; discriminate H1].
  destruct (build_article (Demo.env_of Scenario.crawl) Scenario.first
              Scenario.seven_page') as [a2|e2] eqn:H2;
    [|vm_compute in H2; discriminate H2].
  exists a1, a2. split; [reflexivity|]. split; [reflexivity|].
  destruct (word_count_from_metadata (Demo.env_of Scenario.crawl)
              Scenario.third Scenario.first Scenario.seven_page
              Scenario.seven_page' a1 a2 eq_refl H1 H2)
    as (Hsame & d & Hd & _ & _ & Hint & _).
  vm_compute in Hd. injection Hd as <-.
  assert (H7 : word_count a1 = 7) by (apply Hint; reflexivity).
  split; [|split; [exact H7 | now rewrite <- Hsame]].
  vm_compute in H1, H2. injection H1 as <-. injection H2 as <-. discriminate.
Defined.

(** ** The text of the paragraphs *)

Lemma append_assoc (a b c : string) : (a +:+ b) +:+ c = a +:+ (b +:+ c).
Proof.
  induction a as [|x a IH]; [reflexivity|].
  change (String x ((a +:+ b) +:+ c) = String x (a +:+ (b +:+ c))).
  f_equal. exact IH.
Qed.

Lemma append_empty_r (a : string) : a +:+ "" = a.
Proof.
  induction a as [|x a IH]; [reflexivity|].
  change (String x (a +:+ "") = String x a). f_equal. exact IH.
Qed.

Lemma concat_cons (x : string) (l : list string) :
  String.concat "" (x :: l) = x +:+ String.concat "" l.
Proof. destruct l; simpl; [now rewrite append_empty_r | reflexivity]. Qed.

Lemma fold_paragraphs ps init :
  fold_left (fun full_text p => full_text +:+ (text p +:+ newline)) ps init
  = init +:+ String.concat "" (map (fun p => text p +:+ newline) ps).
Proof.
  revert init. induction ps as [|p ps IH]; intros init.
  - simpl. now rewrite append_empty_r.
  - change (fold_left (fun full_text p => full_text +:+ (text p +:+ newline))
              (p :: ps) init)
      with (fold_left (fun full_text p => full_text +:+ (text p +:+ newline))
              ps (init +:+ (text p +:+ newline))).
    rewrite IH, map_cons, concat_cons, append_assoc. reflexivity.
Qed.

Lemma terminated_is_joined (l : list string) :
  l <> [] ->
  String.concat "" (map (fun s => s +:+ newline) l)
  = String.concat newline l +:+ newline.
Proof.
  induction l as [|s l IH]; [congruence|]. intros _.
  destruct l as [|s' l].
  - reflexivity.
  - change (String.concat "" (map (fun s => s +:+ newline) (s :: s' :: l)))
      with ((s +:+ newline) +:+
              String.concat "" (map (fun s => s +:+ newline) (s' :: l))).
    rewrite IH by discriminate.
    change (String.concat newline (s :: s' :: l))
      with (s +:+ newline +:+ String.concat newline (s' :: l)).
    now rewrite !append_assoc.
Qed.

(** C9, as stated, fails: the page with the paragraphs Hello and World
    gets a content that ends with a newline. *)
Lemma content_is_not_joined :
  exists a,
    build_article (Demo.env_of Scenario.crawl) Scenario.first Scenario.empty_page
    = Ok a
    /\ map text (find_all "p" Scenario.empty_page) = ["Hello"; "World"]
    /\ joined_paragraphs Scenario.empty_page = "Hello" +:+ newline +:+ "World"
    /\ content a = "Hello" +:+ newline +:+ "World" +:+ newline
    /\ content a <> joined_paragraphs Scenario.empty_page.
Proof.
  eexists. split; [vm_compute; reflexivity|].
  repeat (split; [vm_compute; reflexivity|]). vm_compute. discriminate.
Qed.

(** C9, amended.  The content of a record is the text of every paragraph
    element, in document order, each followed by a newline: the empty
    string for a page without paragraphs, and otherwise the texts joined
    by newlines with one more newline at the end. *)
Theorem content_is_terminated_paragraphs env u soup a :
  build_article env u soup = Ok a ->
  content a
  = String.concat "" (map (fun p => text p +:+ newline) (find_all "p" soup))
  /\ (find_all "p" soup = [] -> content a = "")
  /\ (find_all "p" soup <> [] ->
      content a = joined_paragraphs soup +:+ newline).
Proof.
  intros Hb.
  assert (Hc : content a = paragraphs_text soup).
  { destruct (build_article_needs_dict _ _ _ _ Hb) as [d Hd].
    rewrite (build_article_dict _ _ _ _ Hd) in Hb.
    destruct (py_split_space _); [|discriminate]. simpl in Hb.
    destruct (py_int _ _); [|discriminate]. simpl in Hb.
    injection Hb as <-. reflexivity. }
  rewrite Hc. unfold paragraphs_text. rewrite fold_paragraphs. simpl.
  split; [reflexivity|]. split.
  - intros ->. reflexivity.
  - intros Hne. unfold joined_paragraphs.
    rewrite <- terminated_is_joined.
    + now rewrite map_map.
    + destruct (find_all "p" soup); [congruence | discriminate].
Qed.

Lemma content_is_terminated_paragraphs_witness :
  exists a,
    build_article (Demo.env_of Scenario.crawl) Scenario.first Scenario.empty_page
    = Ok a
    /\ content a = joined_paragraphs Scenario.empty_page +:+ newline.
Proof.
  eexists. split; [vm_compute; reflexivity|].
  eapply (content_is_terminated_paragraphs
            (Demo.env_of Scenario.crawl) Scenario.first Scenario.empty_page).
  - vm_compute. reflexivity.
  - vm_compute. discriminate.
Defined.

(** ** The month key *)

Lemma str_split_cons sep s : exists w ws, str_split sep s = w :: ws.
Proof.
  induction s as [|c s (w & ws & IH)]; simpl; [eauto|].
  destruct (Ascii.eqb c sep); [eauto|]. rewrite IH. eauto.
Qed.

Lemma concat_String sep c w ws :
  String.concat sep (String c w :: ws) = String c (String.concat sep (w :: ws)).
Proof. destruct ws; reflexivity. Qed.

(** Joining the tokens with the separator gives the string back. *)
Lemma str_split_join sep s :
  String.concat (String sep "") (str_split sep s) = s.
Proof.
  induction s as [|c s IH]; [reflexivity|]. simpl.
  destruct (Ascii.eqb_spec c sep) as [->|Hne].
  - destruct (str_split_cons sep s) as (w & ws & Hs). rewrite Hs in *.
    change (String.concat (String sep "") ("" :: w :: ws))
      with (String sep (String.concat (String sep "") (w :: ws))).
    now rewrite IH.
  - destruct (str_split_cons sep s) as (w & ws & Hs). rewrite Hs in *.
    now rewrite concat_String, IH.
Qed.

(** No token holds the separator. *)
Lemma str_split_tokens sep s :
  Forall (fun t => contains_char sep t = false) (str_split sep s).
Proof.
  induction s as [|c s IH]; simpl; [repeat constructor|].
  destruct (Ascii.eqb c sep) eqn:Hc; [constructor; [reflexivity|exact IH]|].
  destruct (str_split sep s) as [|w ws]; [repeat constructor; simpl; now rewrite Hc|].
  inversion IH as [|? ? Hw Hws]; subst. constructor; [|exact Hws].
  simpl. now rewrite Hc, Hw.
Qed.

Lemma str_split_whole sep s :
  contains_char sep s = false -> str_split sep s = [s].
Proof.
  induction s as [|c s IH]; simpl; [reflexivity|].
  intros H. apply orb_false_iff in H. destruct H as [Hc Hs].
  rewrite Hc, (IH Hs). reflexivity.
Qed.

Lemma str_split_app sep a b :
  str_split sep (a +:+ String sep b) = str_split sep a ++ str_split sep b.
Proof.
  induction a as [|c a IH].
  - change ("" +:+ String sep b) with (String sep b). simpl.
    now rewrite Ascii.eqb_refl.
  - change (String c a +:+ String sep b) with (String c (a +:+ String sep b)).
    simpl. rewrite IH. destruct (Ascii.eqb c sep); [reflexivity|].
    destruct (str_split_cons sep a) as (w & ws & ->). reflexivity.
Qed.

Lemma py_index_last {A} (l : list A) :
  py_index l (-1)
  = match rev l with x :: _ => Ok x | [] => Raise IndexError end.
Proof.
  rewrite <- (rev_involutive l) at 1. destruct (rev l) as [|x r]; [reflexivity|].
  unfold py_index. simpl rev. rewrite length_app, length_rev. simpl length.
  replace (-1 <? 0) with true by reflexivity.
  destruct (_ || _) eqn:Hb.
  - apply orb_true_iff in Hb. destruct Hb as [Hb|Hb]; [apply Z.ltb_lt in Hb|apply Z.leb_le in Hb]; lia.
  - replace (Z.to_nat (-1 + Z.of_nat (length r + 1))) with (length (rev r))
      by (rewrite length_rev; lia).
    rewrite nth_error_app2 by lia. now rewrite Nat.sub_diag.
Qed.

Lemma py_index_before_last {A} (l : list A) :
  py_index l (-2)
  = match rev l with _ :: y :: _ => Ok y | _ => Raise IndexError end.
Proof.
  rewrite <- (rev_involutive l) at 1. destruct (rev l) as [|x [|y r]]; try reflexivity.
  unfold py_index. simpl rev. rewrite !length_app, length_rev. simpl length.
  replace (-2 <? 0) with true by reflexivity.
  destruct (_ || _) eqn:Hb.
  - apply orb_true_iff in Hb. destruct Hb as [Hb|Hb]; [apply Z.ltb_lt in Hb|apply Z.leb_le in Hb]; lia.
  - replace (Z.to_nat (-2 + Z.of_nat (length r + 1 + 1))) with (length (rev r))
      by (rewrite length_rev; lia).
    rewrite nth_error_app1 by (rewrite length_app; simpl; lia).
    rewrite nth_error_app2 by lia. now rewrite Nat.sub_diag.
Qed.

(** Removing [.xml] from a token that has no dot before its [.xml]
    ending leaves what stands before the ending. *)
Lemma str_replace_xml_ending m :
  contains_char "." m = false -> str_replace ".xml" "" (m +:+ ".xml") = m.
Proof.
  unfold str_replace. induction m as [|c m IH]; [reflexivity|].
  intros H. simpl in H. apply orb_false_iff in H. destruct H as [Hc Hm].
  change (String c m +:+ ".xml") with (String c (m +:+ ".xml")).
  cbn [replace_from String.prefix].
  destruct (ascii_dec "." c) as [<-|Hne]; [discriminate Hc|].
  f_equal. now apply IH.
Qed.

(** C7, as stated, fails: for the address of a compressed sitemap the
    code removes the [.xml] inside the last token, where stripping a
    suffix would leave the token as it is. *)
Lemma month_key_is_not_suffix_stripping :
  month_key Scenario.august_gz = Ok ("2023", "8.gz")
  /\ month_key_as_specified Scenario.august_gz = Ok ("2023", "8.xml.gz")
  /\ month_key Scenario.august_gz <> month_key_as_specified Scenario.august_gz.
Proof.
  split; [vm_compute; reflexivity|]. split; [vm_compute; reflexivity|].
  vm_compute. discriminate.
Qed.

(** C7, amended.  The tokens are the pieces of the address between its
    dashes.  The key is the second-to-last token and the last token with
    every occurrence of [.xml] removed, and nothing else is done to
    either; an address with fewer than two tokens has no key.  For an
    address that ends in [-year-month.xml], with no dash in the year and
    neither dash nor dot in the month, the key is the year and the month
    as they stand. *)
Theorem month_key_of_tokens sitemap_url :
  String.concat "-" (str_split "-" sitemap_url) = sitemap_url
  /\ Forall (fun t => contains_char "-" t = false) (str_split "-" sitemap_url)
  /\ month_key sitemap_url
     = match rev (str_split "-" sitemap_url) with
       | last :: year :: _ => Ok (year, str_replace ".xml" "" last)
       | _ => Raise IndexError
       end
  /\ (forall stem year month,
         sitemap_url = stem +:+ "-" +:+ year +:+ "-" +:+ month +:+ ".xml" ->
         contains_char "-" year = false ->
         contains_char "-" month = false ->
         contains_char "." month = false ->
         month_key sitemap_url = Ok (year, month)).
Proof.
  assert (Hkey : forall u,
             month_key u
             = match rev (str_split "-" u) with
               | last :: year :: _ => Ok (year, str_replace ".xml" "" last)
               | _ => Raise IndexError
               end).
  { intros u. unfold month_key. rewrite py_index_before_last, py_index_last.
    destruct (rev (str_split "-" u)) as [|x [|y r]]; reflexivity. }
  split; [apply (str_split_join "-")|]. split; [apply str_split_tokens|].
  split; [apply Hkey|].
  intros stem year month -> Hy Hm Hdot. rewrite Hkey.
  change (stem +:+ "-" +:+ year +:+ "-" +:+ month +:+ ".xml")
    with (stem +:+ String "-" (year +:+ String "-" (month +:+ ".xml"))).
  rewrite !str_split_app, (str_split_whole _ _ Hy).
  assert (Hlast : contains_char "-" (month +:+ ".xml") = false).
  { clear -Hm. induction month as [|c m IH]; [reflexivity|].
    simpl in Hm. apply orb_false_iff in Hm. destruct Hm as [Hc Hm].
    change (String c m +:+ ".xml") with (String c (m +:+ ".xml")).
    simpl. now rewrite Hc, IH. }
  rewrite (str_split_whole _ _ Hlast), !rev_app_distr. simpl.
  now rewrite str_replace_xml_ending.
Qed.

Lemma month_key_of_tokens_witness :
  month_key Scenario.august = Ok ("2023", "8").
Proof.
  destruct (month_key_of_tokens Scenario.august) as (_ & _ & _ & H).
  apply (H "https://www.almayadeen.net/sitemaps/all/sitemap" "2023" "8");
    reflexivity.
Defined.

(** ** Locations *)

(** Induction on trees: a tag may assume the property of its children. *)
Lemma node_induction (P : node -> Prop) :
  (forall s, P (NavigableString s)) ->
  (forall s, P (Comment s)) ->
  (forall name attrs contents, Forall P contents -> P (Tag name attrs contents)) ->
  forall n, P n.
Proof.
  intros Hs Hc Ht.
  fix IH 1. intros [s|s|name attrs contents]; [apply Hs | apply Hc |].
  apply Ht. induction contents as [|c cs IHcs]; constructor; [apply IH | exact IHcs].
Qed.

Lemma filter_flat_map_length {A B} (f : B -> bool) (g : A -> list B) l :
  length (List.filter f (flat_map g l))
  = list_sum (map (fun x => length (List.filter f (g x))) l).
Proof.
  induction l as [|x l IH]; [reflexivity|].
  simpl. rewrite List.filter_app, length_app, IH. reflexivity.
Qed.

Lemma count_tag_descendants name n :
  length (List.filter (has_name name) (n :: descendants n)) = count_tag name n.
Proof.
  induction n as [s|s|nm attrs contents IH] using node_induction;
    [reflexivity | reflexivity |].
  assert (Hsum : length (List.filter (has_name name)
                           (flat_map (fun c => c :: descendants c) contents))
                 = list_sum (map (count_tag name) contents)).
  { rewrite filter_flat_map_length. apply (f_equal list_sum).
    induction IH as [|c cs Hc _ IHcs]; [reflexivity|].
    rewrite !map_cons. f_equal; [exact Hc | exact IHcs]. }
  change (descendants (Tag nm attrs contents))
    with (flat_map (fun c => c :: descendants c) contents).
  simpl List.filter. simpl count_tag. simpl has_name.
  destruct (String.eqb nm name); simpl; rewrite Hsum; reflexivity.
Qed.

(** [find_all] finds as many elements as the tree has. *)
Lemma find_all_count name soup :
  length (find_all name soup) = count_tags name soup.
Proof.
  unfold find_all, soup_descendants, count_tags.
  rewrite filter_flat_map_length. apply (f_equal list_sum).
  induction soup as [|n soup IH]; [reflexivity|].
  rewrite !map_cons. f_equal; [apply count_tag_descendants | exact IH].
Qed.

(** The locations of a sitemap, in the order of its entries. *)
Lemma sitemap_locations locs :
  map text (find_all "loc" (Demo.sitemap locs)) = locs.
Proof.
  unfold find_all, soup_descendants, Demo.sitemap, Demo.urlset. simpl.
  rewrite !app_nil_r.
  induction locs as [|u locs IH]; [reflexivity|].
  simpl. now rewrite IH.
Qed.

(** C5, as stated, fails on a malformed document: for the sitemap that is
    cut off after its first entry the parser recovers the entry, and the
    function returns its location, not the empty list. *)
Lemma cut_off_sitemap_has_locations :
  requests_get (Demo.env_of Scenario.crawl_cut_off) [] Scenario.august
  = Response 200 "<urlset><url><loc>https://www.almayadeen.net/articles/first</loc>"
  /\ (get_article_urls (Demo.env_of Scenario.crawl_cut_off) Scenario.august []).1
     = Ok ["https://www.almayadeen.net/articles/first"]
  /\ (get_article_urls (Demo.env_of Scenario.crawl_cut_off) Scenario.august []).1
     <> Ok [].
Proof.
  split; [reflexivity|]. split; [vm_compute; reflexivity|].
  vm_compute. discriminate.
Qed.

(** C5, amended.  When the document is fetched, both sitemap functions
    return the text of every [loc] element of the tree the parser built,
    in document order, and never an error: as many strings as the tree
    has [loc] elements, the empty list exactly when it has none, and the
    listed locations in their order for a sitemap. *)
Theorem locations_of_the_tree env target tr status body :
  (400 <=? status) && (status <? 600) = false ->
  let soup := BeautifulSoup env body in
  let locs := map text (find_all "loc" soup) in
  (requests_get env (tr ++ [EvPrint (MsgFetchingArticles target)]) target
     = Response status body ->
   get_article_urls env target tr
   = (Ok locs, tr ++ [EvPrint (MsgFetchingArticles target); EvGet target;
                      EvPrint (MsgFoundArticles (length locs))]))
  /\ (requests_get env (tr ++ [EvPrint (MsgFetchingIndex target)]) target
        = Response status body ->
      get_monthly_sitemaps env target tr
      = (Ok locs, tr ++ [EvPrint (MsgFetchingIndex target); EvGet target;
                         EvPrint (MsgFoundSitemaps (length locs))]))
  /\ length locs = count_tags "loc" soup
  /\ (locs = [] <-> count_tags "loc" soup = O)
  /\ (forall listed, soup = Demo.sitemap listed -> locs = listed).
Proof.
  intros Hs soup locs.
  assert (Hlen : length locs = count_tags "loc" soup).
  { unfold locs. rewrite length_map. apply find_all_count. }
  split; [|split; [|split; [exact Hlen|split]]].
  - intros Hget. apply retry_returns.
    rewrite get_article_urls_body_run. cbn zeta.
    rewrite Hget, Hs, <- app_assoc. reflexivity.
  - intros Hget. apply retry_returns.
    rewrite get_monthly_sitemaps_body_run. cbn zeta.
    rewrite Hget, Hs, <- app_assoc. reflexivity.
  - rewrite <- Hlen. destruct locs; simpl; split; congruence || discriminate.
  - intros listed Hsoup. unfold locs. rewrite Hsoup. apply sitemap_locations.
Qed.

Lemma locations_of_the_tree_witness :
  get_article_urls (Demo.env_of Scenario.crawl) Scenario.august []
  = (Ok [Scenario.first; Scenario.second],
     [EvPrint (MsgFetchingArticles Scenario.august); EvGet Scenario.august;
      EvPrint (MsgFoundArticles 2)]).
Proof.
  destruct (locations_of_the_tree (Demo.env_of Scenario.crawl) Scenario.august
              [] 200 (Demo.sitemap_body Scenario.august_articles) eq_refl)
    as (H & _ & _ & _ & Hlisted).
  rewrite H by (vm_compute; reflexivity).
  rewrite (Hlisted [Scenario.first; Scenario.second]) by (vm_compute; reflexivity).
  reflexivity.
Defined.

(** ** Failed requests *)

(** The decorator does call again when the call raises: three attempts
    with two pauses, then [RetryError]. *)
Example retry_calls_again :
  retry (Demo.env_of Scenario.offline) 3
        (_ ← get (Demo.env_of Scenario.offline) Scenario.august; mret tt) []
  = (Raise RetryError,
     [EvGet Scenario.august; EvSleep 2; EvGet Scenario.august; EvSleep 2;
      EvGet Scenario.august]).
Proof. vm_compute. reflexivity. Qed.

(** A request that fails with a [RequestException] is answered inside the
    body, so the decorator sees a call that returned: one request, no
    pause, the empty list. *)
Lemma get_article_urls_failure env u tr e :
  requests_get env (tr ++ [EvPrint (MsgFetchingArticles u)]) u = RequestFails e ->
  is_RequestException e = true ->
  get_article_urls env u tr
  = (Ok [], tr ++ [EvPrint (MsgFetchingArticles u); EvGet u;
                   EvPrint (MsgFailedArticles u e)]).
Proof.
  intros Hget He. apply retry_returns.
  rewrite get_article_urls_body_run. cbn zeta.
  rewrite Hget, He, <- app_assoc. reflexivity.
Qed.

Lemma get_article_urls_status env u tr status body :
  requests_get env (tr ++ [EvPrint (MsgFetchingArticles u)]) u
    = Response status body ->
  (400 <=? status) && (status <? 600) = true ->
  get_article_urls env u tr
  = (Ok [], tr ++ [EvPrint (MsgFetchingArticles u); EvGet u;
                   EvPrint (MsgFailedArticles u (HTTPError status))]).
Proof.
  intros Hget Hs. apply retry_returns.
  rewrite get_article_urls_body_run. cbn zeta.
  rewrite Hget, Hs, <- app_assoc. reflexivity.
Qed.

Lemma scrape_failure env u tr e :
  requests_get env (tr ++ [EvPrint (MsgScraping u)]) u = RequestFails e ->
  scrape env u tr
  = (Ok None, tr ++ [EvPrint (MsgScraping u); EvGet u;
                     EvPrint (MsgFailedScrape u e)]).
Proof.
  intros Hget. rewrite scrape_is_body, scrape_body_run. cbn zeta.
  rewrite Hget, <- app_assoc. reflexivity.
Qed.

(** C4.  With every connection refused, and with a server that answers
    500, each of the three fetching functions issues one request, takes
    no pause and returns its empty result: the failure never reaches the
    decorator, so nothing is tried again. *)
Theorem failed_request_is_not_retried :
  let offline := Demo.env_of Scenario.offline in
  let broken := Demo.env_of Scenario.broken in
  get_monthly_sitemaps offline sitemap_index_url []
  = (Ok [], [EvPrint (MsgFetchingIndex sitemap_index_url);
             EvGet sitemap_index_url;
             EvPrint (MsgFailedIndex ConnectionError)])
  /\ get_article_urls offline Scenario.august []
     = (Ok [], [EvPrint (MsgFetchingArticles Scenario.august);
                EvGet Scenario.august;
                EvPrint (MsgFailedArticles Scenario.august ConnectionError)])
  /\ scrape offline Scenario.first []
     = (Ok None, [EvPrint (MsgScraping Scenario.first);
                  EvGet Scenario.first;
                  EvPrint (MsgFailedScrape Scenario.first ConnectionError)])
  /\ get_monthly_sitemaps broken sitemap_index_url []
     = (Ok [], [EvPrint (MsgFetchingIndex sitemap_index_url);
                EvGet sitemap_index_url;
                EvPrint (MsgFailedIndex (HTTPError 500))])
  /\ get_article_urls broken Scenario.august []
     = (Ok [], [EvPrint (MsgFetchingArticles Scenario.august);
                EvGet Scenario.august;
                EvPrint (MsgFailedArticles Scenario.august (HTTPError 500))])
  /\ scrape broken Scenario.first []
     = (Ok None, [EvPrint (MsgScraping Scenario.first);
                  EvGet Scenario.first;
                  EvPrint (MsgFailedScrape Scenario.first (HTTPError 500))]).
Proof. repeat split; vm_compute; reflexivity. Qed.

(** ** Failures in the flush *)

(** C8.  Two runs of [main] that end early without the cap being reached
    and with a monthly sitemap left: when the address of the first monthly
    sitemap has no dash, the month key cannot be derived and [IndexError]
    leaves [main]; when the output directory is missing and cannot be
    made, [OSError] leaves [main].  Either way the two records of the
    first month are not written and the second month is never fetched. *)
Theorem flush_failure_ends_the_run :
  let no_dash := main (Demo.env_of Scenario.crawl_latest) [] in
  let no_directory := main (Demo.env_of Scenario.crawl_no_directory) [] in
  no_dash.1 = Raise IndexError
  /\ length (List.filter is_progress no_dash.2) = 2%nat
  /\ written no_dash.2 = []
  /\ ~ In (EvGet Scenario.september) no_dash.2
  /\ no_directory.1 = Raise OSError
  /\ length (List.filter is_progress no_directory.2) = 2%nat
  /\ written no_directory.2 = []
  /\ ~ In (EvGet Scenario.september) no_directory.2.
Proof.
  cbn zeta. repeat split; try (vm_compute; reflexivity).
  - vm_compute. intros H. repeat (destruct H as [H|H]; [discriminate H|]). exact H.
  - vm_compute. intros H. repeat (destruct H as [H|H]; [discriminate H|]). exact H.
Qed.

(** ** The flush at the cap *)

Lemma article_is_no_sitemap i :
  String.eqb (Scenario.article i) sitemap_index_url = false
  /\ String.eqb (Scenario.article i) Scenario.latest = false.
Proof. split; reflexivity. Qed.

(** In the long month every article is scraped with success. *)
Lemma crowded_scrape n u tr :
  String.eqb u sitemap_index_url = false ->
  String.eqb u Scenario.latest = false ->
  scrape (Scenario.crowded_with n) u tr
  = (Ok (Some (Scenario.bare_record u)),
     tr ++ [EvPrint (MsgScraping u); EvGet u]).
Proof.
  intros Hindex Hlatest. rewrite scrape_is_body, scrape_body_run. cbn zeta.
  unfold Scenario.crowded_with at 1. cbn [requests_get].
  rewrite Hindex, Hlatest.
  change ((400 <=? 200) && (200 <? 600)) with false. cbn iota.
  replace (build_article (Scenario.crowded_with n) u
             (BeautifulSoup (Scenario.crowded_with n)
                (Demo.document Scenario.bare_page)))
    with (Ok (Scenario.bare_record u)) by reflexivity.
  now rewrite <- app_assoc.
Qed.

Lemma crowded_articles_loop n max_articles article_urls :
  forall articles count tr,
    Forall (fun u => String.eqb u sitemap_index_url = false
                     /\ String.eqb u Scenario.latest = false) article_urls ->
    count + Z.of_nat (length article_urls) <= max_articles ->
    articles_loop (Scenario.crowded_with n) max_articles article_urls
      (articles, count) tr
    = (Ok (articles ++ map Scenario.bare_record article_urls,
           count + Z.of_nat (length article_urls)),
       tr ++ Scenario.scraped_in_turn max_articles count article_urls).
Proof.
  induction article_urls as [|u rest IH]; intros articles count tr Hurls Hle.
  - simpl. now rewrite !app_nil_r, Z.add_0_r.
  - inversion Hurls as [|? ? [Hindex Hlatest] Hrest]; subst.
    simpl length in *. simpl articles_loop. simpl fst. simpl snd.
    replace (max_articles <=? count) with false
      by (symmetry; apply Z.leb_gt; lia).
    rewrite bind_run, (crowded_scrape n u tr Hindex Hlatest), bind_run.
    unfold print, emit. simpl fst. simpl snd.
    rewrite IH by (auto; lia).
    f_equal; [f_equal; f_equal|].
    + now rewrite <- app_assoc.
    + lia.
    + simpl. now rewrite <- !app_assoc.
Qed.

Lemma crowded_get_article_urls n tr :
  (1 <= n)%nat ->
  get_article_urls (Scenario.crowded_with n) Scenario.latest tr
  = (Ok (Scenario.long_month n),
     tr ++ [EvPrint (MsgFetchingArticles Scenario.latest);
            EvGet Scenario.latest; EvPrint (MsgFoundArticles n)]).
Proof.
  intros Hn. apply retry_returns. rewrite get_article_urls_body_run. cbn zeta.
  assert (Hparse : BeautifulSoup (Scenario.crowded_with n)
                     (Demo.sitemap_body (Scenario.long_month n))
                   = Demo.sitemap (Scenario.long_month n)).
  { unfold Scenario.crowded_with. cbn [BeautifulSoup].
    replace (String.eqb (Demo.sitemap_body (Scenario.long_month n))
               (Demo.document Scenario.bare_page)) with false by reflexivity.
    replace (String.eqb (Demo.sitemap_body (Scenario.long_month n))
               (Demo.sitemap_body [Scenario.latest])) with false
      by (destruct n as [|[|n]]; [lia | reflexivity | reflexivity]).
    now rewrite String.eqb_refl. }
  unfold Scenario.crowded_with at 1. cbn [requests_get].
  change (String.eqb Scenario.latest sitemap_index_url) with false.
  change (String.eqb Scenario.latest Scenario.latest) with true.
  cbn iota. change ((400 <=? 200) && (200 <? 600)) with false. cbn iota.
  rewrite Hparse, sitemap_locations, <- app_assoc.
  unfold Scenario.long_month. now rewrite length_map, length_seq.
Qed.

(** What the scraping of a list of addresses leaves in the trace. *)
Lemma scraped_in_turn_shape max_articles article_urls :
  forall count,
    article_urls <> [] ->
    exists t,
      Scenario.scraped_in_turn max_articles count article_urls
      = t ++ [EvPrint (MsgProgress (count + Z.of_nat (length article_urls))
                         max_articles)]
      /\ S (length (List.filter is_progress t)) = length article_urls
      /\ Forall (fun e => is_closing e = false) t.
Proof.
  induction article_urls as [|u rest IH]; intros count Hne; [congruence|].
  destruct rest as [|u' rest].
  - exists [EvPrint (MsgScraping u); EvGet u]. simpl.
    split; [reflexivity|]. split; [reflexivity|]. repeat constructor.
  - destruct (IH (count + 1)) as (t & Ht & Hlen & Hcalm); [discriminate|].
    exists ([EvPrint (MsgScraping u); EvGet u;
             EvPrint (MsgProgress (count + 1) max_articles)] ++ t).
    change (Scenario.scraped_in_turn max_articles count (u :: u' :: rest))
      with ([EvPrint (MsgScraping u); EvGet u;
             EvPrint (MsgProgress (count + 1) max_articles)]
              ++ Scenario.scraped_in_turn max_articles (count + 1) (u' :: rest)).
    rewrite Ht. split; [|split].
    + replace (count + Z.of_nat (length (u :: u' :: rest)))
        with (count + 1 + Z.of_nat (length (u' :: rest)))
        by (simpl length; lia).
      now rewrite <- app_assoc.
    + simpl in *. lia.
    + repeat (constructor; [reflexivity|]). exact Hcalm.
Qed.

(** A run in the world of the long month, with the cap at the number of
    its articles: the cap is reached with the last article, the batch is
    in the accumulator, and the month key of the flush raises. *)
Lemma crowded_run n :
  (1 <= n)%nat ->
  main_with (Scenario.crowded_with n) (Z.of_nat n) []
  = (Raise IndexError,
     [EvPrint (MsgFetchingIndex sitemap_index_url); EvGet sitemap_index_url;
      EvPrint (MsgFoundSitemaps 1);
      EvPrint (MsgFetchingArticles Scenario.latest); EvGet Scenario.latest;
      EvPrint (MsgFoundArticles n)]
       ++ Scenario.scraped_in_turn (Z.of_nat n) 0 (Scenario.long_month n)).
Proof.
  intros Hn. unfold main_with. rewrite bind_run.
  replace (get_monthly_sitemaps (Scenario.crowded_with n) sitemap_index_url [])
    with (Ok [Scenario.latest],
          [EvPrint (MsgFetchingIndex sitemap_index_url);
           EvGet sitemap_index_url; EvPrint (MsgFoundSitemaps 1)])
    by reflexivity.
  rewrite bind_run. simpl months_loop. simpl snd.
  replace (Z.of_nat n <=? 0) with false by (symmetry; apply Z.leb_gt; lia).
  rewrite bind_run, (crowded_get_article_urls n _ Hn), bind_run.
  rewrite crowded_articles_loop.
  - rewrite bind_run. simpl fst. simpl snd.
    assert (Hflush : forall tr,
               flush (Scenario.crowded_with n) Scenario.latest
                 ([] ++ map Scenario.bare_record (Scenario.long_month n)) tr
               = (Raise IndexError, tr)).
    { intros tr. destruct n as [|k]; [lia|]. reflexivity. }
    rewrite Hflush, <- app_assoc. reflexivity.
  - apply Forall_forall. intros u Hu. apply list_elem_of_In in Hu.
    unfold Scenario.long_month in Hu. apply in_map_iff in Hu.
    destruct Hu as (i & <- & _). apply article_is_no_sitemap.
  - unfold Scenario.long_month. rewrite length_map, length_seq. lia.
Qed.

(** C2, as stated, fails in its last part.  The counter never passes the
    cap and nothing is fetched once it is reached (the theorem above), but
    the batch of the month in progress can be lost: where the monthly
    sitemap has an address without a dash and lists 10000 articles, [main]
    counts 10000 articles and then raises [IndexError] from the flush
    statement, with nothing written.  With the cap at 2 the same happens in
    the world of the two-article month without a dash, and, with
    [OSError], in the world whose directory cannot be made. *)
Theorem cap_reached_batch_not_flushed :
  (exists t,
      main (Scenario.crowded 10000) []
      = (Raise IndexError, t ++ [EvPrint (MsgProgress 10000 10000)])
      /\ Z.of_nat (length (List.filter is_progress t)) = 9999
      /\ Forall (fun e => is_closing e = false) t)
  /\ main_with (Demo.env_of Scenario.crawl_latest) 2 []
     = (Raise IndexError,
        [EvPrint (MsgFetchingIndex sitemap_index_url); EvGet sitemap_index_url;
         EvPrint (MsgFoundSitemaps 2);
         EvPrint (MsgFetchingArticles Scenario.latest); EvGet Scenario.latest;
         EvPrint (MsgFoundArticles 2);
         EvPrint (MsgScraping Scenario.first); EvGet Scenario.first;
         EvPrint (MsgProgress 1 2);
         EvPrint (MsgScraping Scenario.second); EvGet Scenario.second;
         EvPrint (MsgProgress 2 2)])
  /\ main_with (Demo.env_of Scenario.crawl_no_directory) 2 []
     = (Raise OSError,
        [EvPrint (MsgFetchingIndex sitemap_index_url); EvGet sitemap_index_url;
         EvPrint (MsgFoundSitemaps 2);
         EvPrint (MsgFetchingArticles Scenario.august); EvGet Scenario.august;
         EvPrint (MsgFoundArticles 2);
         EvPrint (MsgScraping Scenario.first); EvGet Scenario.first;
         EvPrint (MsgProgress 1 2);
         EvPrint (MsgScraping Scenario.second); EvGet Scenario.second;
         EvPrint (MsgProgress 2 2)]).
Proof.
  split; [|split; vm_compute; reflexivity].
  assert (Hn : (1 <= Z.to_nat 10000)%nat) by lia.
  pose proof (crowded_run (Z.to_nat 10000) Hn) as Hrun.
  rewrite Z2Nat.id in Hrun by lia.
  destruct (scraped_in_turn_shape 10000 (Scenario.long_month (Z.to_nat 10000)) 0)
    as (t & Ht & Hlen & Hcalm).
  { unfold Scenario.long_month. intros H. apply (f_equal (@length _)) in H.
    rewrite length_map, length_seq in H. simpl in H. lia. }
  rewrite Ht in Hrun.
  assert (Hcount : length (Scenario.long_month (Z.to_nat 10000))
                   = Z.to_nat 10000)
    by (unfold Scenario.long_month; now rewrite length_map, length_seq).
  rewrite Hcount in Hrun, Hlen. rewrite Z2Nat.id in Hrun by lia.
  exists ([EvPrint (MsgFetchingIndex sitemap_index_url); EvGet sitemap_index_url;
           EvPrint (MsgFoundSitemaps 1);
           EvPrint (MsgFetchingArticles Scenario.latest); EvGet Scenario.latest;
           EvPrint (MsgFoundArticles (Z.to_nat 10000))] ++ t).
  split; [|split].
  - unfold main, Scenario.crowded. rewrite Hrun, <- app_assoc. reflexivity.
  - rewrite List.filter_app, length_app.
    change (length (List.filter is_progress
                      [EvPrint (MsgFetchingIndex sitemap_index_url);
                       EvGet sitemap_index_url; EvPrint (MsgFoundSitemaps 1);
                       EvPrint (MsgFetchingArticles Scenario.latest);
                       EvGet Scenario.latest;
                       EvPrint (MsgFoundArticles (Z.to_nat 10000))]))
      with O.
    lia.
  - apply Forall_app. split; [|exact Hcalm]. repeat constructor.
Qed.

(** ** The theorems on the loops at work *)

(** The cap is 1 and the first month lists two articles: one record is
    accumulated and written, the second article is never asked for. *)
Lemma cap_never_exceeded_witness :
  0 <= 1
  /\ (main_with (Demo.env_of Scenario.crawl) 1 []).1 = Ok tt
  /\ List.filter is_get (main_with (Demo.env_of Scenario.crawl) 1 []).2
     = [EvGet sitemap_index_url; EvGet Scenario.august; EvGet Scenario.first]
  /\ Z.of_nat (length (written (main_with (Demo.env_of Scenario.crawl) 1 []).2))
     = 1.
Proof.
  split; [lia|]. split; [vm_compute; reflexivity|].
  split; [vm_compute; reflexivity|].
  destruct (cap_never_exceeded (Demo.env_of Scenario.crawl) 1
              (main_with (Demo.env_of Scenario.crawl) 1 []).1
              (main_with (Demo.env_of Scenario.crawl) 1 []).2)
    as [_ H].
  - lia.
  - apply surjective_pairing.
  - destruct H as (t & c & _ & _ & Hc & Hw); [vm_compute; reflexivity|].
    rewrite Hw.
    + rewrite Hc. vm_compute. reflexivity.
    + vm_compute. repeat constructor.
Defined.

(** Two months: the batch written for September holds the one record
    scraped since the flush for August, and none of August's. *)
Lemma flush_clears_accumulator_witness :
  exists t1 filepath b t2,
    (main (Demo.env_of Scenario.crawl) []).2 = t1 ++ EvWrite filepath b :: t2
    /\ map url b = [Scenario.third]
    /\ length b = length (List.filter is_progress (since_last_flush t1))
    /\ ~ In (EvPrint (MsgScraping Scenario.first)) (since_last_flush t1).
Proof.
  exists (firstn 23 (main (Demo.env_of Scenario.crawl) []).2).
  exists (FileUtility.directory +:+ "\articles_2023_9.json").
  exists [Scenario.third_record].
  exists (skipn 24 (main (Demo.env_of Scenario.crawl) []).2).
  assert (Hsplit : (main (Demo.env_of Scenario.crawl) []).2
                   = firstn 23 (main (Demo.env_of Scenario.crawl) []).2
                     ++ EvWrite (FileUtility.directory +:+ "\articles_2023_9.json")
                          [Scenario.third_record]
                     :: skipn 24 (main (Demo.env_of Scenario.crawl) []).2).
  { vm_compute. reflexivity. }
  split; [exact Hsplit|]. split; [reflexivity|].
  destruct (flush_clears_accumulator (Demo.env_of Scenario.crawl) 10000)
    as [_ H].
  split.
  - eapply (H (main (Demo.env_of Scenario.crawl) []).1
              (main (Demo.env_of Scenario.crawl) []).2).
    + apply surjective_pairing.
    + exact Hsplit.
  - vm_compute. intros Hin.
    repeat (destruct Hin as [Hin|Hin]; [discriminate Hin|]). exact Hin.
Defined.

(** * More on the functions *)

(** ** [scrape] *)

(** X1.  [scrape] never raises and is never tried again: whatever the
    network, the parser and the decoder do, one call prints its line,
    issues exactly one request and takes no pause; it returns a record
    that carries the address it was given, or [None] after a line that
    reports the failure. *)
Theorem scrape_one_request env article_url tr :
  let begun := tr ++ [EvPrint (MsgScraping article_url); EvGet article_url] in
  (exists a, scrape env article_url tr = (Ok (Some a), begun)
             /\ url a = article_url)
  \/ (exists e, scrape env article_url tr
                = (Ok None, begun ++ [EvPrint (MsgFailedScrape article_url e)])).
Proof.
  cbn zeta. rewrite scrape_is_body, scrape_body_run. cbn zeta.
  destruct (requests_get env _ article_url) as [status body|e].
  - destruct ((400 <=? status) && (status <? 600)).
    + right. exists (HTTPError status). now rewrite <- !app_assoc.
    + destruct (build_article env article_url _) as [a|e] eqn:Hb.
      * left. exists a. split; [now rewrite <- !app_assoc|].
        destruct (build_article_needs_dict _ _ _ _ Hb) as [d Hd].
        rewrite (build_article_dict _ _ _ _ Hd) in Hb.
        destruct (py_split_space _); [|discriminate]. simpl in Hb.
        destruct (py_int _ _); [|discriminate]. simpl in Hb.
        injection Hb as <-. reflexivity.
      * right. exists e. now rewrite <- !app_assoc.
  - right. exists e. now rewrite <- !app_assoc.
Qed.

(** X2.  When a record is built: exactly when the metadata embedded in
    the page is an object whose [keywords], if any, is a string and whose
    [word_count], if any, has an [int]. *)
Theorem build_article_succeeds_iff env article_url soup :
  (exists a, build_article env article_url soup = Ok a)
  <-> exists d s n,
        embedded_metadata env soup = Some (PyDict d)
        /\ default (PyStr "") (d !! "keywords") = PyStr s
        /\ py_int (interpreter env) (default (PyInt 0) (d !! "word_count"))
           = Ok n.
Proof.
  split.
  - intros [a Hb]. destruct (build_article_needs_dict _ _ _ _ Hb) as [d Hd].
    rewrite (build_article_dict _ _ _ _ Hd) in Hb.
    destruct (default (PyStr "") (d !! "keywords")) as [| | | |s| |] eqn:Hk;
      try discriminate.
    simpl in Hb.
    destruct (py_int _ _) as [n|] eqn:Hn; [|discriminate].
    exists d, s, n. apply load_metadata_embedded in Hd. auto.
  - intros (d & s & n & Hd & Hk & Hn). apply load_metadata_embedded in Hd.
    rewrite (build_article_dict _ _ _ _ Hd), Hk, Hn. simpl. eauto.
Qed.

(** X3.  The keywords of a record are the pieces of the metadata string
    between its spaces: there is always at least one, none holds a space,
    and joined by spaces they give the metadata string back (the empty
    string when the key is missing). *)
Theorem keywords_join_back env article_url soup a :
  build_article env article_url soup = Ok a ->
  keywords a <> []
  /\ Forall (fun k => contains_char " " k = false) (keywords a)
  /\ exists d,
       load_metadata env (find "script" metadata_attrs soup) = Ok (PyDict d)
       /\ default (PyStr "") (d !! "keywords")
          = PyStr (String.concat " " (keywords a)).
Proof.
  intros Hb. destruct (build_article_needs_dict _ _ _ _ Hb) as [d Hd].
  rewrite (build_article_dict _ _ _ _ Hd) in Hb.
  destruct (default (PyStr "") (d !! "keywords")) as [| | | |s| |] eqn:Hk;
    try discriminate.
  simpl in Hb. destruct (py_int _ _); [|discriminate]. simpl in Hb.
  injection Hb as <-. simpl. split; [|split].
  - destruct (str_split_cons " " s) as (w & ws & ->). discriminate.
  - apply str_split_tokens.
  - exists d. split; [exact Hd|]. rewrite Hk. f_equal. symmetry.
    apply (str_split_join " ").
Qed.

Lemma keywords_join_back_witness :
  exists a,
    build_article (Demo.env_of Scenario.crawl_keywords) Scenario.first
      Scenario.keywords_page = Ok a
    /\ keywords a = ["gaza"; "lebanon"; ""; "news"]
    /\ String.concat " " (keywords a) = "gaza lebanon  news".
Proof.
  eexists. split; [vm_compute; reflexivity|]. split; [reflexivity|].
  destruct (keywords_join_back (Demo.env_of Scenario.crawl_keywords)
              Scenario.first Scenario.keywords_page _ eq_refl)
    as (_ & _ & d & _ & _).
  reflexivity.
Defined.

(** ** The decorator on the sitemap functions *)

(** X4.  A request that keeps failing with an exception that is not a
    [RequestException] is not caught in the body, so the decorator does
    its work: both sitemap functions make three attempts with a pause
    after the first and after the second, and then raise [RetryError] to
    the caller. *)
Theorem unexpected_failure_is_retried env target tr e :
  (forall tr', requests_get env tr' target = RequestFails e) ->
  is_RequestException e = false ->
  get_article_urls env target tr
  = (Raise RetryError,
     tr ++ [EvPrint (MsgFetchingArticles target); EvGet target;
            EvSleep (wait_exponential env 1);
            EvPrint (MsgFetchingArticles target); EvGet target;
            EvSleep (wait_exponential env 2);
            EvPrint (MsgFetchingArticles target); EvGet target])
  /\ get_monthly_sitemaps env target tr
     = (Raise RetryError,
        tr ++ [EvPrint (MsgFetchingIndex target); EvGet target;
               EvSleep (wait_exponential env 1);
               EvPrint (MsgFetchingIndex target); EvGet target;
               EvSleep (wait_exponential env 2);
               EvPrint (MsgFetchingIndex target); EvGet target]).
Proof.
  intros Hget He. split.
  - unfold get_article_urls, retry. simpl retry_from.
    repeat (rewrite get_article_urls_body_run; cbn zeta; rewrite Hget, He).
    rewrite <- !app_assoc. reflexivity.
  - unfold get_monthly_sitemaps, retry. simpl retry_from.
    repeat (rewrite get_monthly_sitemaps_body_run; cbn zeta; rewrite Hget, He).
    rewrite <- !app_assoc. reflexivity.
Qed.

Lemma unexpected_failure_is_retried_witness :
  (get_article_urls (Demo.env_of Scenario.garbled) Scenario.august []).1
  = Raise RetryError
  /\ requested (get_article_urls (Demo.env_of Scenario.garbled)
                  Scenario.august []).2
     = [Scenario.august; Scenario.august; Scenario.august]
  /\ (main (Demo.env_of Scenario.garbled) []).1 = Raise RetryError.
Proof.
  destruct (unexpected_failure_is_retried (Demo.env_of Scenario.garbled)
              Scenario.august [] ValueError) as [H _].
  - intros tr'. reflexivity.
  - reflexivity.
  - rewrite H. split; [reflexivity|]. split; [reflexivity|].
    vm_compute. reflexivity.
Defined.

(** X5.  When the first attempt fails in that way and the second is
    answered, [get_article_urls] returns the locations of the second
    answer after one pause: the caller sees no failure. *)
Theorem transient_failure_is_recovered env target tr e status body :
  let first_try := tr ++ [EvPrint (MsgFetchingArticles target)] in
  let second_try :=
    tr ++ [EvPrint (MsgFetchingArticles target); EvGet target;
           EvSleep (wait_exponential env 1);
           EvPrint (MsgFetchingArticles target)] in
  requests_get env first_try target = RequestFails e ->
  is_RequestException e = false ->
  requests_get env second_try target = Response status body ->
  (400 <=? status) && (status <? 600) = false ->
  let locs := map text (find_all "loc" (BeautifulSoup env body)) in
  get_article_urls env target tr
  = (Ok locs,
     second_try ++ [EvGet target; EvPrint (MsgFoundArticles (length locs))]).
Proof.
  cbn zeta. intros H1 He H2 Hs.
  unfold get_article_urls, retry. simpl retry_from.
  rewrite get_article_urls_body_run. cbn zeta. rewrite H1, He.
  rewrite get_article_urls_body_run. cbn zeta.
  rewrite <- !app_assoc. simpl app. rewrite H2, Hs.
  rewrite <- !app_assoc. reflexivity.
Qed.

Lemma transient_failure_is_recovered_witness :
  (get_article_urls Scenario.flaky Scenario.august []).1
  = Ok [Scenario.first; Scenario.second]
  /\ requested (get_article_urls Scenario.flaky Scenario.august []).2
     = [Scenario.august; Scenario.august]
  /\ pauses (get_article_urls Scenario.flaky Scenario.august []).2 = [2].
Proof.
  rewrite (transient_failure_is_recovered Scenario.flaky Scenario.august []
             ValueError 200 (Demo.sitemap_body Scenario.august_articles)).
  - split; [vm_compute; reflexivity|]. split; vm_compute; reflexivity.
  - reflexivity.
  - reflexivity.
  - vm_compute. reflexivity.
  - reflexivity.
Defined.

Lemma requested_app t1 t2 : requested (t1 ++ t2) = requested t1 ++ requested t2.
Proof. unfold requested. apply flat_map_app. Qed.

Lemma pauses_app t1 t2 : pauses (t1 ++ t2) = pauses t1 ++ pauses t2.
Proof. unfold pauses. apply flat_map_app. Qed.

(** The decorator around a call that issues one request and takes no
    pause: at most one attempt more than it may repeat, one pause between
    two attempts. *)
Lemma retry_from_attempts {A} env (call : Run A) target :
  (forall tr, exists r d, call tr = (r, tr ++ d)
                          /\ requested d = [target] /\ pauses d = []) ->
  forall n first tr, exists r d k,
    retry_from env first n call tr = (r, tr ++ d)
    /\ (1 <= k <= S n)%nat
    /\ requested d = repeat target k
    /\ pauses d = map (wait_exponential env) (seq first (k - 1)).
Proof.
  intros Hcall n. induction n as [|n IH]; intros first tr; simpl.
  - destruct (Hcall tr) as (r & d & -> & Hr & Hp).
    destruct r as [a|e]; eexists _, d, 1%nat;
      (split; [reflexivity|]); (split; [lia|]); auto.
  - destruct (Hcall tr) as (r & d & -> & Hr & Hp). destruct r as [a|e].
    + exists (Ok a), d, 1%nat. split; [reflexivity|]. split; [lia|]. auto.
    + destruct (IH (S first) ((tr ++ d) ++ [EvSleep (wait_exponential env first)]))
        as (r' & d' & k & -> & Hk & Hr' & Hp').
      exists r', (d ++ EvSleep (wait_exponential env first) :: d'), (S k).
      split; [|split; [lia|split]].
      * f_equal. now rewrite <- !app_assoc.
      * rewrite requested_app, Hr. simpl. now rewrite Hr'.
      * rewrite pauses_app, Hp.
        change (pauses (EvSleep (wait_exponential env first) :: d'))
          with (wait_exponential env first :: pauses d').
        rewrite Hp'. replace (S k - 1)%nat with (S (k - 1)) by lia.
        reflexivity.
Qed.

(** X6.  One call of a sitemap function makes at least one and at most
    three requests, all for its address, and pauses once between two
    consecutive attempts, for the times the schedule gives for the first
    and the second attempt. *)
Theorem attempts_are_bounded env target tr :
  (exists r d k,
      get_article_urls env target tr = (r, tr ++ d)
      /\ (1 <= k <= 3)%nat
      /\ requested d = repeat target k
      /\ pauses d = map (wait_exponential env) (seq 1 (k - 1)))
  /\ (exists r d k,
         get_monthly_sitemaps env target tr = (r, tr ++ d)
         /\ (1 <= k <= 3)%nat
         /\ requested d = repeat target k
         /\ pauses d = map (wait_exponential env) (seq 1 (k - 1))).
Proof.
  split.
  - apply (retry_from_attempts env (get_article_urls_body env target) target).
    clear tr. intros tr. rewrite get_article_urls_body_run. cbn zeta.
    destruct (requests_get env _ target) as [status body|e].
    + destruct ((400 <=? status) && (status <? 600));
        eexists _, _; rewrite <- app_assoc; split; try reflexivity; auto.
    + destruct (is_RequestException e);
        eexists _, _; rewrite <- app_assoc; split; try reflexivity; auto.
  - apply (retry_from_attempts env (get_monthly_sitemaps_body env target) target).
    clear tr. intros tr. rewrite get_monthly_sitemaps_body_run. cbn zeta.
    destruct (requests_get env _ target) as [status body|e].
    + destruct ((400 <=? status) && (status <? 600));
        eexists _, _; rewrite <- app_assoc; split; try reflexivity; auto.
    + destruct (is_RequestException e);
        eexists _, _; rewrite <- app_assoc; split; try reflexivity; auto.
Qed.

(** ** The index *)

(** X7.  When the index cannot be had, the run is over at once: after a
    request that fails with a [RequestException], after an answer with a
    status from 400 to 599, and after a document without locations,
    [main] issues no other request, writes nothing and returns with the
    closing line for zero articles. *)
Theorem failed_index_ends_run env :
  let asked := [EvPrint (MsgFetchingIndex sitemap_index_url)] in
  (forall e,
      requests_get env asked sitemap_index_url = RequestFails e ->
      is_RequestException e = true ->
      main env []
      = (Ok tt, asked ++ [EvGet sitemap_index_url; EvPrint (MsgFailedIndex e);
                          EvPrint (MsgComplete 0)]))
  /\ (forall status body,
         requests_get env asked sitemap_index_url = Response status body ->
         (400 <=? status) && (status <? 600) = true ->
         main env []
         = (Ok tt, asked ++ [EvGet sitemap_index_url;
                             EvPrint (MsgFailedIndex (HTTPError status));
                             EvPrint (MsgComplete 0)]))
  /\ (forall status body,
         requests_get env asked sitemap_index_url = Response status body ->
         (400 <=? status) && (status <? 600) = false ->
         find_all "loc" (BeautifulSoup env body) = [] ->
         main env []
         = (Ok tt, asked ++ [EvGet sitemap_index_url;
                             EvPrint (MsgFoundSitemaps 0);
                             EvPrint (MsgComplete 0)])).
Proof.
  cbn zeta. split; [|split].
  - intros e Hget He. unfold main, main_with. rewrite bind_run.
    unfold get_monthly_sitemaps.
    erewrite retry_returns.
    2:{ rewrite get_monthly_sitemaps_body_run. cbn zeta. simpl app.
        rewrite Hget, He. reflexivity. }
    reflexivity.
  - intros status body Hget Hs. unfold main, main_with. rewrite bind_run.
    unfold get_monthly_sitemaps.
    erewrite retry_returns.
    2:{ rewrite get_monthly_sitemaps_body_run. cbn zeta. simpl app.
        rewrite Hget, Hs. reflexivity. }
    reflexivity.
  - intros status body Hget Hs Hnone. unfold main, main_with. rewrite bind_run.
    unfold get_monthly_sitemaps.
    erewrite retry_returns.
    2:{ rewrite get_monthly_sitemaps_body_run. cbn zeta. simpl app.
        rewrite Hget, Hs, Hnone. reflexivity. }
    reflexivity.
Qed.

Lemma failed_index_ends_run_witness :
  main (Demo.env_of Scenario.offline) []
  = (Ok tt, [EvPrint (MsgFetchingIndex sitemap_index_url);
             EvGet sitemap_index_url;
             EvPrint (MsgFailedIndex ConnectionError);
             EvPrint (MsgComplete 0)]).
Proof.
  destruct (failed_index_ends_run (Demo.env_of Scenario.offline)) as [H _].
  apply (H ConnectionError); reflexivity.
Defined.

(** ** [save_to_json] *)


(** A writing that is cut short: the file was opened, nothing counts as
    written, the failure line names the exception, and the run goes on. *)
Example cut_short_leaves_an_open_file :
  let run := main (Demo.env_of Scenario.crawl_cut_short) [] in
  run.1 = Ok tt
  /\ written run.2 = []
  /\ List.filter (fun e => is_closing e && negb (is_flush e)) run.2
     = [EvOpen (filepath_of (Demo.env_of Scenario.crawl_cut_short) "2023" "8");
        EvOpen (filepath_of (Demo.env_of Scenario.crawl_cut_short) "2023" "9");
        EvPrint (MsgComplete 3)]
  /\ List.filter is_failed_save run.2
     = [EvPrint (MsgFailedSave
                   (filepath_of (Demo.env_of Scenario.crawl_cut_short) "2023" "8")
                   UnicodeEncodeError);
        EvPrint (MsgFailedSave
                   (filepath_of (Demo.env_of Scenario.crawl_cut_short) "2023" "9")
                   UnicodeEncodeError)].
Proof. vm_compute. repeat split. Qed.

Lemma length_append (a b : string) :
  String.length (a +:+ b) = (String.length a + String.length b)%nat.
Proof.
  induction a as [|c a IH]; [reflexivity|].
  change (String c a +:+ b) with (String c (a +:+ b)). simpl. now rewrite IH.
Qed.

Lemma append_inj_r (a b t : string) : a +:+ t = b +:+ t -> a = b.
Proof.
  revert b. induction a as [|c a IH]; intros [|c' b] H.
  - reflexivity.
  - apply (f_equal String.length) in H.
    change ("" +:+ t) with t in H.
    change (String c' b +:+ t) with (String c' (b +:+ t)) in H.
    simpl in H. rewrite length_append in H. lia.
  - apply (f_equal String.length) in H.
    change ("" +:+ t) with t in H.
    change (String c a +:+ t) with (String c (a +:+ t)) in H.
    simpl in H. rewrite length_append in H. lia.
  - change (String c a +:+ t) with (String c (a +:+ t)) in H.
    change (String c' b +:+ t) with (String c' (b +:+ t)) in H.
    injection H as -> H. f_equal. now apply IH.
Qed.

Lemma append_inj_l (t a b : string) : t +:+ a = t +:+ b -> a = b.
Proof.
  induction t as [|c t IH]; intros H; [exact H|].
  change (String c t +:+ a) with (String c (t +:+ a)) in H.
  change (String c t +:+ b) with (String c (t +:+ b)) in H.
  injection H as H. now apply IH.
Qed.

(** Two strings cut at their first separator. *)
Lemma cut_at_first sep (a a' b b' : string) :
  contains_char sep a = false -> contains_char sep a' = false ->
  a +:+ String sep b = a' +:+ String sep b' -> a = a' /\ b = b'.
Proof.
  revert a'. induction a as [|c a IH]; intros [|c' a'] Ha Ha' H.
  - injection H as ->. auto.
  - change (String c' a' +:+ String sep b') with (String c' (a' +:+ String sep b')) in H.
    injection H as <- _. simpl in Ha'. now rewrite Ascii.eqb_refl in Ha'.
  - change (String c a +:+ String sep b) with (String c (a +:+ String sep b)) in H.
    injection H as -> _. simpl in Ha. now rewrite Ascii.eqb_refl in Ha.
  - change (String c a +:+ String sep b) with (String c (a +:+ String sep b)) in H.
    change (String c' a' +:+ String sep b') with (String c' (a' +:+ String sep b')) in H.
    injection H as -> H. simpl in Ha, Ha'.
    apply orb_false_iff in Ha. apply orb_false_iff in Ha'.
    destruct (IH a' (proj2 Ha) (proj2 Ha') H) as [-> ->]. auto.
Qed.

(** X9.  The file name tells the year and the month apart only by the
    first underscore: two keys whose years hold no underscore get
    different files unless they are the same key, while the keys
    (2023_1, 2) and (2023, 1_2) share one file. *)
Theorem filepath_of_key env year month year' month' :
  (contains_char "_" year = false -> contains_char "_" year' = false ->
   filepath_of env year month = filepath_of env year' month' ->
   year = year' /\ month = month')
  /\ filepath_of env "2023_1" "2" = filepath_of env "2023" "1_2".
Proof.
  split; [|reflexivity].
  intros Hy Hy' H. unfold filepath_of in H.
  apply append_inj_l, append_inj_l, append_inj_l in H.
  change (year +:+ "_" +:+ month +:+ ".json")
    with (year +:+ String "_" (month +:+ ".json")) in H.
  change (year' +:+ "_" +:+ month' +:+ ".json")
    with (year' +:+ String "_" (month' +:+ ".json")) in H.
  destruct (cut_at_first _ _ _ _ _ Hy Hy' H) as [-> Hm].
  split; [reflexivity|]. now apply append_inj_r in Hm.
Qed.

Lemma filepath_of_key_witness :
  filepath_of (Demo.env_of Scenario.crawl) "2023" "8"
  <> filepath_of (Demo.env_of Scenario.crawl) "2023" "9".
Proof.
  intros H.
  destruct (filepath_of_key (Demo.env_of Scenario.crawl) "2023" "8" "2023" "9")
    as [Hinj _].
  destruct (Hinj eq_refl eq_refl H) as [_ Hm]. discriminate Hm.
Defined.

(** ** The loop over the articles *)

Lemma scrape_shape env u tr :
  exists r d,
    scrape env u tr = (Ok r, tr ++ d)
    /\ requested d = [u] /\ pauses d = [] /\ List.filter is_write d = []
    /\ List.filter is_progress d = []
    /\ (forall a, r = Some a -> url a = u).
Proof.
  destruct (scrape_trace env u tr) as (r & d & H & Hd & Hurl).
  rewrite scrape_is_body, scrape_body_run in *. cbn zeta in *.
  destruct (requests_get env _ u) as [status body|e].
  - destruct ((400 <=? status) && (status <? 600)).
    + eexists _, _. rewrite <- app_assoc. split; [reflexivity|].
      repeat split; auto; discriminate.
    + destruct (build_article env u _) as [a|e] eqn:Hb.
      * eexists _, _. rewrite <- app_assoc. split; [reflexivity|].
        repeat split; auto. intros a' Ha. apply Hurl.
        injection H as <- _. exact Ha.
      * eexists _, _. rewrite <- app_assoc. split; [reflexivity|].
        repeat split; auto; discriminate.
  - eexists _, _. rewrite <- app_assoc. split; [reflexivity|].
    repeat split; auto; discriminate.
Qed.

Lemma filter_write_app t1 t2 :
  List.filter is_write (t1 ++ t2)
  = List.filter is_write t1 ++ List.filter is_write t2.
Proof. apply List.filter_app. Qed.

(** What one pass over the addresses of a month does. *)
Lemma articles_loop_grows env max urls :
  forall st tr, exists new d k,
    articles_loop env max urls st tr
    = (Ok (st.1 ++ new, st.2 + Z.of_nat (length new)), tr ++ d)
    /\ requested d = firstn k urls
    /\ sublist (map url new) (firstn k urls)
    /\ (k = length urls \/ max <= st.2 + Z.of_nat (length new))
    /\ (st.2 <= max -> st.2 + Z.of_nat (length new) <= max)
    /\ (max <= st.2 -> new = [] /\ d = [])
    /\ pauses d = [] /\ List.filter is_write d = []
    /\ length (List.filter is_progress d) = length new.
Proof.
  induction urls as [|u rest IH]; intros [acc c] tr; simpl fst; simpl snd.
  - exists [], [], O. simpl. rewrite !app_nil_r, Z.add_0_r.
    repeat split; auto; try constructor; lia.
  - simpl articles_loop. destruct (max <=? c) eqn:Hcap.
    + apply Z.leb_le in Hcap. exists [], [], O. simpl.
      rewrite !app_nil_r, Z.add_0_r.
      repeat split; auto; try constructor; lia.
    + apply Z.leb_gt in Hcap. rewrite bind_run.
      destruct (scrape_shape env u tr) as (r & d1 & -> & Hr1 & Hp1 & Hw1 & Hg1 & Hurl).
      destruct r as [a|].
      * rewrite bind_run. unfold print, emit. simpl fst. simpl snd.
        destruct (IH (acc ++ [a], c + 1)
                     ((tr ++ d1) ++ [EvPrint (MsgProgress (c + 1) max)]))
          as (new & d2 & k & Heq & Hr2 & Hsub & Hall & Hle & _ & Hp2 & Hw2 & Hg2).
        simpl fst in *. simpl snd in *.
        exists (a :: new), (d1 ++ EvPrint (MsgProgress (c + 1) max) :: d2), (S k).
        split; [|repeat split].
        -- rewrite Heq. f_equal; [|now rewrite <- !app_assoc].
           f_equal. f_equal; [now rewrite <- app_assoc|]. simpl length. lia.
        -- rewrite requested_app, Hr1. simpl. now rewrite Hr2.
        -- simpl. rewrite (Hurl a eq_refl). now apply sublist_skip.
        -- simpl length. destruct Hall as [->|Hall]; [now left|right; lia].
        -- intros _. simpl length. lia.
        -- lia.
        -- lia.
        -- rewrite pauses_app, Hp1. simpl. exact Hp2.
        -- rewrite filter_write_app, Hw1. simpl. exact Hw2.
        -- rewrite List.filter_app, Hg1. simpl. now rewrite Hg2.
      * destruct (IH (acc, c) (tr ++ d1))
          as (new & d2 & k & Heq & Hr2 & Hsub & Hall & Hle & _ & Hp2 & Hw2 & Hg2).
        simpl fst in *. simpl snd in *.
        exists new, (d1 ++ d2), (S k).
        split; [|repeat split].
        -- rewrite Heq. now rewrite <- !app_assoc.
        -- rewrite requested_app, Hr1. simpl. now rewrite Hr2.
        -- simpl. now apply sublist_cons.
        -- destruct Hall as [->|Hall]; [now left|now right].
        -- exact Hle.
        -- lia.
        -- lia.
        -- rewrite pauses_app, Hp1. exact Hp2.
        -- rewrite filter_write_app, Hw1. exact Hw2.
        -- rewrite List.filter_app, Hg1. exact Hg2.
Qed.

(** An event that is kept by a filter lies behind a part of the trace of
    which the filter keeps nothing. *)
Lemma split_after_quiet (f : event -> bool) (d1 d2 t1 t2 : list event) e :
  List.filter f d1 = [] -> f e = true ->
  d1 ++ d2 = t1 ++ e :: t2 ->
  exists t1', t1 = d1 ++ t1' /\ d2 = t1' ++ e :: t2.
Proof.
  intros Hd1 He. revert t1. induction d1 as [|x d1 IH]; intros t1 Heq.
  - exists t1. auto.
  - simpl in Hd1. destruct (f x) eqn:Hx; [discriminate|].
    destruct t1 as [|y t1]; simpl in Heq.
    + injection Heq as -> _. congruence.
    + injection Heq as -> Heq. destruct (IH Hd1 _ Heq) as (t1' & -> & ->).
      exists t1'. auto.
Qed.

(** The pass stops with the line of progress that reaches the cap. *)
Lemma articles_loop_stops env max urls :
  forall st tr r d,
    articles_loop env max urls st tr = (r, tr ++ d) ->
    forall t1 n m t2,
      d = t1 ++ EvPrint (MsgProgress n m) :: t2 ->
      st.2 < n /\ m = max /\ (max <= n -> t2 = []).
Proof.
  induction urls as [|u rest IH]; intros [acc c] tr r d Hrun t1 n m t2 Hd;
    simpl fst in *; simpl snd in *.
  - simpl in Hrun. injection Hrun as _ Hrun.
    rewrite <- (app_nil_r tr) in Hrun at 1. apply app_inv_head in Hrun.
    subst d. now destruct t1.
  - simpl articles_loop in Hrun. destruct (max <=? c) eqn:Hcap.
    + injection Hrun as _ Hrun.
      rewrite <- (app_nil_r tr) in Hrun at 1. apply app_inv_head in Hrun.
      subst d. now destruct t1.
    + apply Z.leb_gt in Hcap. rewrite bind_run in Hrun.
      destruct (scrape_shape env u tr) as (s & d1 & Hs & _ & _ & _ & Hq1 & _).
      rewrite Hs in Hrun. destruct s as [a|].
      * rewrite bind_run in Hrun. unfold print, emit in Hrun.
        simpl fst in Hrun. simpl snd in Hrun.
        destruct (articles_loop_grows env max rest (acc ++ [a], c + 1)
                    ((tr ++ d1) ++ [EvPrint (MsgProgress (c + 1) max)]))
          as (new & d2 & k & Hgrow & _ & _ & _ & _ & Hat & _).
        simpl fst in Hgrow, Hat. simpl snd in Hgrow, Hat.
        pose proof Hgrow as Hrest. rewrite Hrun in Hgrow.
        injection Hgrow as _ Heq. rewrite <- !app_assoc in Heq.
        apply app_inv_head in Heq. rewrite Heq in Hd.
        destruct (split_after_quiet is_progress d1 _ t1 t2
                    (EvPrint (MsgProgress n m)) Hq1 eq_refl Hd)
          as (t1' & -> & Hd2).
        destruct t1' as [|x t1'].
        -- injection Hd2 as <- <- <-. split; [lia|]. split; [reflexivity|].
           intros Hmax. now destruct (Hat Hmax).
        -- injection Hd2 as <- Hd2.
           destruct (IH _ _ _ _ Hrest _ _ _ _ Hd2) as (Hlt & Hm & Hstop).
           simpl snd in Hlt. split; [lia|]. auto.
      * destruct (articles_loop_grows env max rest (acc, c) (tr ++ d1))
          as (new & d2 & k & Hgrow & _).
        simpl fst in Hgrow. simpl snd in Hgrow.
        pose proof Hgrow as Hrest. rewrite Hrun in Hgrow.
        injection Hgrow as _ Heq. rewrite <- !app_assoc in Heq.
        apply app_inv_head in Heq. rewrite Heq in Hd.
        destruct (split_after_quiet is_progress d1 _ t1 t2
                    (EvPrint (MsgProgress n m)) Hq1 eq_refl Hd)
          as (t1' & -> & Hd2).
        apply (IH _ _ _ _ Hrest _ _ _ _ Hd2).
Qed.

(** X10.  One pass over the addresses of a month only appends to the
    accumulator and counts what it appends.  The addresses are requested
    once each, in the order of the sitemap, until the list is exhausted
    or the cap is reached; the pass ends with the line of progress that
    reaches the cap, so that nothing is requested after it; the new
    records come from requested addresses, in that order; no pause is
    taken and nothing is written.  A pass that starts at the cap does
    nothing at all. *)
Theorem articles_loop_appends env max_articles article_urls st tr :
  exists new d k,
    articles_loop env max_articles article_urls st tr
    = (Ok (st.1 ++ new, st.2 + Z.of_nat (length new)), tr ++ d)
    /\ requested d = firstn k article_urls
    /\ sublist (map url new) (firstn k article_urls)
    /\ (k = length article_urls
        \/ max_articles <= st.2 + Z.of_nat (length new))
    /\ (forall t1 n m t2,
          d = t1 ++ EvPrint (MsgProgress n m) :: t2 ->
          st.2 < n /\ m = max_articles /\ (max_articles <= n -> t2 = []))
    /\ length (List.filter is_progress d) = length new
    /\ (st.2 <= max_articles -> st.2 + Z.of_nat (length new) <= max_articles)
    /\ (max_articles <= st.2 -> new = [] /\ d = [])
    /\ pauses d = [] /\ List.filter is_write d = [].
Proof.
  destruct (articles_loop_grows env max_articles article_urls st tr)
    as (new & d & k & H1 & H2 & H3 & H4 & H5 & H6 & H7 & H8 & H9).
  exists new, d, k. split; [exact H1|]. split; [exact H2|].
  split; [exact H3|]. split; [exact H4|].
  split; [exact (articles_loop_stops _ _ _ _ _ _ _ H1)|]. auto 10.
Qed.

(** ** The month key, again *)

Lemma str_split_two sep s :
  contains_char sep s = true -> (2 <= length (str_split sep s))%nat.
Proof.
  induction s as [|c s IH]; simpl; [discriminate|].
  destruct (Ascii.eqb c sep) eqn:Hc; simpl.
  - intros _. destruct (str_split_cons sep s) as (w & ws & ->). simpl. lia.
  - intros H. specialize (IH H).
    destruct (str_split sep s) as [|w ws]; simpl in *; lia.
Qed.

Lemma month_key_rev u :
  month_key u
  = match rev (str_split "-" u) with
    | last :: year :: _ => Ok (year, str_replace ".xml" "" last)
    | _ => Raise IndexError
    end.
Proof.
  unfold month_key. rewrite py_index_before_last, py_index_last.
  destruct (rev (str_split "-" u)) as [|x [|y r]]; reflexivity.
Qed.

Lemma month_key_with_dash u :
  contains_char "-" u = true -> exists key, month_key u = Ok key.
Proof.
  intros H. apply str_split_two in H. rewrite month_key_rev.
  rewrite <- (length_rev (str_split "-" u)) in H.
  destruct (rev (str_split "-" u)) as [|x [|y r]]; simpl in H; try lia. eauto.
Qed.

Lemma month_key_without_dash u :
  contains_char "-" u = false -> month_key u = Raise IndexError.
Proof.
  intros H. rewrite month_key_rev, (str_split_whole _ _ H). reflexivity.
Qed.

Lemma month_key_raise_no_dash u e :
  month_key u = Raise e -> contains_char "-" u = false.
Proof.
  intros Hr. destruct (contains_char "-" u) eqn:Hd; [|reflexivity].
  destruct (month_key_with_dash u Hd) as [key Hk]. congruence.
Qed.

(** X11.  An address has a month key exactly when it holds a dash;
    without one the derivation raises [IndexError]. *)
Theorem month_key_needs_dash sitemap_url :
  (contains_char "-" sitemap_url = true
   <-> exists key, month_key sitemap_url = Ok key)
  /\ (contains_char "-" sitemap_url = false
      <-> month_key sitemap_url = Raise IndexError).
Proof.
  split; split.
  - apply month_key_with_dash.
  - intros [key Hk]. destruct (contains_char "-" sitemap_url) eqn:Hd;
      [reflexivity|].
    rewrite (month_key_without_dash _ Hd) in Hk. discriminate.
  - apply month_key_without_dash.
  - apply month_key_raise_no_dash.
Qed.

(** ** The whole run, again *)

(** What was written is never more than the lines of progress show. *)
Lemma audit_written_le max m t :
  audit max m t ->
  (length (written t) + batch (final m t)
   <= batch m + length (List.filter is_progress t))%nat.
Proof.
  revert m. induction t as [|e t IH]; intros m Ha.
  - simpl. lia.
  - destruct Ha as [Hal Hrest]. specialize (IH _ Hrest).
    change (final m (e :: t)) with (final (observe m e) t).
    destruct e as [msg| | | | |p b]; simpl in *; try lia.
    + destruct msg; simpl in *; lia.
    + rewrite length_app. lia.
Qed.

(** X12.  However a run of [main] ends, returned or raised, with or
    without failed writes, the records it has written are no more than
    the articles it has counted, and those are within the cap. *)
Theorem written_within_cap env max_articles r tr :
  0 <= max_articles ->
  main_with env max_articles [] = (r, tr) ->
  (length (written tr) <= length (List.filter is_progress tr))%nat
  /\ Z.of_nat (length (List.filter is_progress tr)) <= max_articles.
Proof.
  intros Hmax Hrun.
  destruct (main_with_audit env max_articles) as (r' & d0 & d & Heq & Hd0 & Ha & _).
  rewrite Hrun in Heq. injection Heq as _ ->.
  destruct (calm_silent d0 Hd0) as [Hw0 Hp0].
  rewrite written_app, List.filter_app, Hw0, Hp0. simpl.
  pose proof (audit_written_le _ _ _ Ha) as Hw. simpl in Hw.
  pose proof (audit_seen _ _ _ Ha) as Hs. simpl in Hs.
  pose proof (audit_seen_le _ _ _ Ha Hmax) as Hle.
  split; lia.
Qed.

Lemma written_within_cap_witness :
  length (written (main_with (Demo.env_of Scenario.crawl_read_only) 2 []).2)
  = O
  /\ length (List.filter is_progress
               (main_with (Demo.env_of Scenario.crawl_read_only) 2 []).2)
     = 2%nat.
Proof.
  destruct (written_within_cap (Demo.env_of Scenario.crawl_read_only) 2
              (main_with (Demo.env_of Scenario.crawl_read_only) 2 []).1
              (main_with (Demo.env_of Scenario.crawl_read_only) 2 []).2)
    as [_ _]; [lia | apply surjective_pairing |].
  split; vm_compute; reflexivity.
Defined.

(** ** The files of a run *)

Lemma calm_no_write d p b :
  Forall (fun e => calm e = true) d -> ~ In (EvWrite p b) d.
Proof.
  intros H Hin. rewrite Forall_forall in H.
  apply list_elem_of_In, H in Hin. discriminate.
Qed.

Lemma filter_no_write d p b :
  List.filter is_write d = [] -> ~ In (EvWrite p b) d.
Proof.
  intros H Hin.
  assert (Hf : In (EvWrite p b) (List.filter is_write d))
    by (apply List.filter_In; auto).
  rewrite H in Hf. exact Hf.
Qed.

Lemma retry_from_again {A} env k n (call : Run A) tr :
  retry_from env k (S n) call tr
  = match call tr with
    | (Ok a, tr') => (Ok a, tr')
    | (Raise e, tr') =>
        retry_from env (S k) n call (tr' ++ [EvSleep (wait_exponential env k)])
    end.
Proof. reflexivity. Qed.

(** The decorated body grows the trace. *)
Lemma get_article_urls_retry_extends env u k n tr r tr' :
  retry_from env k n (get_article_urls_body env u) tr = (r, tr') ->
  exists d, tr' = tr ++ d.
Proof.
  intros Hrun.
  destruct (retry_from_calm env (get_article_urls_body env u) (EvGet u))
    with (n := n) (k := k) (tr := tr) as (r1 & d1 & Hrun1 & _).
  - intros tr2. rewrite get_article_urls_body_run. cbn zeta.
    destruct (requests_get env _ u) as [status body|e].
    + destruct ((400 <=? status) && (status <? 600));
        eexists _, _; rewrite <- app_assoc;
        (split; [reflexivity|]); (split; [repeat constructor|]);
        discriminate.
    + destruct (is_RequestException e); eexists _, _; rewrite <- app_assoc;
        (split; [reflexivity|]); (split; [repeat constructor|]);
        try discriminate.
      intros _ _. exists [EvPrint (MsgFetchingArticles u)]. reflexivity.
  - rewrite Hrun in Hrun1. injection Hrun1 as _ ->. eauto.
Qed.

(** A call of [get_article_urls] begins with its line, writes nothing,
    and raises nothing but [RetryError]. *)
Lemma get_article_urls_begins env u tr :
  exists r d,
    get_article_urls env u tr
    = (r, tr ++ EvPrint (MsgFetchingArticles u) :: d)
    /\ Forall (fun e => calm e = true) d
    /\ (forall e, r = Raise e -> e = RetryError).
Proof.
  destruct (get_article_urls_calm env u tr) as (r & d & H & Hd & Hr).
  assert (Hfirst : exists d', d = EvPrint (MsgFetchingArticles u) :: d').
  { unfold get_article_urls, retry in H.
    change (Nat.pred 3) with 2%nat in H. rewrite retry_from_again in H.
    rewrite get_article_urls_body_run in H. cbn zeta in H.
    destruct (requests_get env _ u) as [status body|e].
    - destruct ((400 <=? status) && (status <? 600));
        injection H as _ H; rewrite <- app_assoc in H;
        apply app_inv_head in H; subst d; eauto.
    - destruct (is_RequestException e).
      + injection H as _ H. rewrite <- app_assoc in H.
        apply app_inv_head in H. subst d. eauto.
      + destruct (get_article_urls_retry_extends _ _ _ _ _ _ _ H) as [d0 Hd0].
        rewrite <- !app_assoc in Hd0. apply app_inv_head in Hd0.
        subst d. simpl. eauto. }
  destruct Hfirst as [d' ->]. exists r, d'. split; [exact H|].
  split; [now inversion Hd|]. intros e He. now destruct (Hr e He).
Qed.

(** The flush statement writes one file at most: the whole accumulator,
    which is not empty, into the file of the month key of the address. *)
Lemma flush_files env u acc tr :
  exists r d,
    flush env u acc tr = (r, tr ++ d)
    /\ (forall p b, In (EvWrite p b) d ->
          b = acc /\ acc <> []
          /\ exists y m, month_key u = Ok (y, m) /\ p = filepath_of env y m)
    /\ (forall e, r = Raise e ->
          e = OSError \/ (e = IndexError /\ month_key u = Raise IndexError)).
Proof.
  destruct acc as [|a acc].
  - exists (Ok []), []. rewrite app_nil_r. split; [reflexivity|].
    split; [intros p b []|discriminate].
  - unfold flush. rewrite bind_run. unfold lift.
    destruct (month_key u) as [[y m]|e] eqn:Hk.
    + rewrite bind_run, save_to_json_run. cbn zeta. simpl fst. simpl snd.
      fold (filepath_of env y m).
      assert (Hw : forall p b d0,
                 (exists made tail,
                     d0 = made ++ tail
                     /\ (made = [] \/ made = [EvMakedirs directory])
                     /\ (tail = [EvOpen (filepath_of env y m);
                                 EvWrite (filepath_of env y m) (a :: acc);
                                 EvPrint (MsgSaved (length (a :: acc))
                                            (filepath_of env y m))]
                         \/ (exists e0,
                               tail = [EvOpen (filepath_of env y m);
                                       EvPrint (MsgFailedSave
                                                  (filepath_of env y m) e0)])
                         \/ (exists e0,
                               tail = [EvPrint (MsgFailedSave
                                                  (filepath_of env y m) e0)]))) ->
                 In (EvWrite p b) d0 ->
                 b = a :: acc /\ a :: acc <> []
                 /\ exists y0 m0, Ok (y, m) = Ok (y0, m0)
                                  /\ p = filepath_of env y0 m0).
      { intros p b d0 (made & tail & -> & Hmade & Htail) Hin.
        assert (Hpb : p = filepath_of env y m /\ b = a :: acc).
        { apply in_app_or in Hin. destruct Hin as [Hin|Hin].
          - destruct Hmade as [-> | ->]; simpl in Hin;
              [contradiction | destruct Hin as [Hin|[]]; discriminate Hin].
          - destruct Htail as [-> |[[e0 ->]|[e0 ->]]]; simpl in Hin;
              repeat (destruct Hin as [Hin|Hin]; [try discriminate Hin|]);
              try contradiction.
            injection Hin as <- <-. auto. }
        destruct Hpb as [-> ->]. split; [reflexivity|].
        split; [discriminate|]. eauto. }
      destruct (path_exists env tr directory).
      * destruct (open_fails env tr _) as [e0|];
          [|destruct (dump_fails env _ _ _) as [e0|]];
          eexists (Ok []), _; (split; [reflexivity|]);
          (split; [|discriminate]); intros p b; apply Hw;
          eexists [], _; (split; [reflexivity|]); (split; [now left|]); eauto.
      * destruct (makedirs_ok env tr directory).
        -- destruct (open_fails env _ _) as [e0|];
             [|destruct (dump_fails env _ _ _) as [e0|]];
             eexists (Ok []), _; rewrite <- app_assoc;
             (split; [reflexivity|]); (split; [|discriminate]);
             intros p b; apply Hw;
             eexists [EvMakedirs directory], _; (split; [reflexivity|]);
             (split; [now right|]); eauto.
        -- exists (Raise OSError), []. rewrite app_nil_r.
           split; [reflexivity|]. split; [intros p b []|].
           intros e [= <-]. now left.
    + exists (Raise e), []. rewrite app_nil_r. split; [reflexivity|].
      split; [intros p b []|]. intros e' [= <-].
      pose proof (month_key_raises _ _ Hk) as ->. auto.
Qed.

(** The files of the loop over the months. *)
Lemma months_loop_files env max sitemaps :
  forall st tr, exists r d,
    months_loop env max sitemaps st tr = (r, tr ++ d)
    /\ (forall p b, In (EvWrite p b) d ->
          b <> []
          /\ exists u y m,
               In (EvPrint (MsgFetchingArticles u)) d
               /\ month_key u = Ok (y, m) /\ p = filepath_of env y m)
    /\ (forall e, r = Raise e ->
          e = RetryError \/ e = OSError
          \/ (e = IndexError
              /\ exists u, In (EvPrint (MsgFetchingArticles u)) d
                           /\ month_key u = Raise IndexError)).
Proof.
  induction sitemaps as [|u rest IH]; intros [acc c] tr; simpl.
  - exists (Ok (acc, c)), []. rewrite app_nil_r. split; [reflexivity|].
    split; [intros p b []|discriminate].
  - destruct (max <=? c).
    + exists (Ok (acc, c)), []. rewrite app_nil_r. split; [reflexivity|].
      split; [intros p b []|discriminate].
    + rewrite bind_run.
      destruct (get_article_urls_begins env u tr) as (r0 & d0 & -> & Hd0 & Hr0).
      destruct r0 as [urls|e].
      * rewrite bind_run.
        destruct (articles_loop_grows env max urls (acc, c)
                    (tr ++ EvPrint (MsgFetchingArticles u) :: d0))
          as (new & d1 & k & -> & _ & _ & _ & _ & _ & _ & Hw1 & _).
        rewrite bind_run. simpl fst. simpl snd.
        destruct (flush_files env u (acc ++ new)
                    ((tr ++ EvPrint (MsgFetchingArticles u) :: d0) ++ d1))
          as (r2 & d2 & -> & Hw2 & Hr2).
        assert (Hhere : forall p b,
                   In (EvWrite p b) (EvPrint (MsgFetchingArticles u) :: d0 ++ d1 ++ d2) ->
                   In (EvWrite p b) d2).
        { intros p b [Hin|Hin]; [discriminate Hin|].
          apply in_app_or in Hin. destruct Hin as [Hin|Hin];
            [now apply calm_no_write in Hin|].
          apply in_app_or in Hin. destruct Hin as [Hin|Hin];
            [now apply filter_no_write in Hin | exact Hin]. }
        destruct r2 as [acc2|e].
        -- destruct (IH (acc2, c + Z.of_nat (length new))
                        (((tr ++ EvPrint (MsgFetchingArticles u) :: d0) ++ d1) ++ d2))
             as (r3 & d3 & -> & Hw3 & Hr3).
           exists r3, (EvPrint (MsgFetchingArticles u) :: d0 ++ d1 ++ d2 ++ d3).
           split; [|split].
           ++ f_equal. rewrite <- !app_assoc. reflexivity.
           ++ intros p b Hin.
              assert (Hcases : In (EvWrite p b) d2 \/ In (EvWrite p b) d3).
              { change (EvPrint (MsgFetchingArticles u) :: d0 ++ d1 ++ d2 ++ d3)
                  with ((EvPrint (MsgFetchingArticles u) :: d0) ++ d1 ++ d2 ++ d3)
                  in Hin.
                rewrite !app_assoc in Hin. apply in_app_or in Hin.
                destruct Hin as [Hin|Hin]; [left|now right].
                apply Hhere. rewrite <- !app_assoc in Hin. exact Hin. }
              destruct Hcases as [Hin2|Hin3].
              ** destruct (Hw2 p b Hin2) as (-> & Hne & y & m & Hk & ->).
                 split; [exact Hne|]. exists u, y, m. split; [now left|auto].
              ** destruct (Hw3 p b Hin3) as (Hne & u' & y & m & Hu' & Hk & ->).
                 split; [exact Hne|]. exists u', y, m. split; [|auto].
                 right. rewrite !app_assoc. apply in_or_app. now right.
           ++ intros e He. destruct (Hr3 e He) as [H|[H|(H & u' & Hu' & Hk)]]; auto.
              right. right. split; [exact H|]. exists u'. split; [|exact Hk].
              right. rewrite !app_assoc. apply in_or_app. now right.
        -- exists (Raise e), (EvPrint (MsgFetchingArticles u) :: d0 ++ d1 ++ d2).
           split; [|split].
           ++ f_equal. rewrite <- !app_assoc. reflexivity.
           ++ intros p b Hin. apply Hhere in Hin.
              destruct (Hw2 p b Hin) as (-> & Hne & y & m & Hk & ->).
              split; [exact Hne|]. exists u, y, m. split; [now left|auto].
           ++ intros e' [= <-]. destruct (Hr2 e eq_refl) as [H|[H Hk]]; auto.
              right. right. split; [exact H|]. exists u. split; [now left|exact Hk].
      * exists (Raise e), (EvPrint (MsgFetchingArticles u) :: d0).
        split; [reflexivity|]. split.
        -- intros p b [Hin|Hin]; [discriminate Hin|].
           now apply calm_no_write in Hin.
        -- intros e' [= <-]. left. now apply Hr0.
Qed.

Lemma main_with_files env max :
  exists r d,
    main_with env max [] = (r, d)
    /\ (forall p b, In (EvWrite p b) d ->
          b <> []
          /\ exists u y m,
               In (EvPrint (MsgFetchingArticles u)) d
               /\ month_key u = Ok (y, m) /\ p = filepath_of env y m)
    /\ (forall e, r = Raise e ->
          e = RetryError \/ e = OSError
          \/ (e = IndexError
              /\ exists u, In (EvPrint (MsgFetchingArticles u)) d
                           /\ month_key u = Raise IndexError)).
Proof.
  unfold main_with. rewrite bind_run.
  destruct (get_monthly_sitemaps_calm env sitemap_index_url [])
    as (r0 & d0 & -> & Hd0 & Hr0).
  simpl app. destruct r0 as [sitemaps|e].
  - rewrite bind_run.
    destruct (months_loop_files env max sitemaps ([], 0) d0)
      as (r & d & -> & Hw & Hr).
    destruct r as [st|e].
    + exists (Ok tt), ((d0 ++ d) ++ [EvPrint (MsgComplete st.2)]).
      split; [reflexivity|]. split; [|discriminate].
      intros p b Hin. apply in_app_or in Hin.
      destruct Hin as [Hin|[Hin|[]]]; [|discriminate Hin].
      apply in_app_or in Hin.
      destruct Hin as [Hin|Hin]; [now apply calm_no_write in Hin|].
      destruct (Hw p b Hin) as (Hne & u & y & m & Hu & Hk & ->).
      split; [exact Hne|]. exists u, y, m. split; [|auto].
      apply in_or_app. left. apply in_or_app. now right.
    + exists (Raise e), (d0 ++ d). split; [reflexivity|]. split.
      * intros p b Hin. apply in_app_or in Hin.
        destruct Hin as [Hin|Hin]; [now apply calm_no_write in Hin|].
        destruct (Hw p b Hin) as (Hne & u & y & m & Hu & Hk & ->).
        split; [exact Hne|]. exists u, y, m. split; [|auto].
        apply in_or_app. now right.
      * intros e' [= <-]. destruct (Hr e eq_refl) as [H|[H|(H & u & Hu & Hk)]]; auto.
        right. right. split; [exact H|]. exists u. split; [|exact Hk].
        apply in_or_app. now right.
  - exists (Raise e), d0. split; [reflexivity|]. split.
    + intros p b Hin. now apply calm_no_write in Hin.
    + intros e' [= <-]. left. now apply Hr0.
Qed.

(** X13.  In every run of [main] a file is written only with a batch that
    is not empty, and its name is made of the month key of a monthly
    sitemap that was fetched in the run. *)
Theorem files_are_named_by_month env max_articles r tr filepath b :
  main_with env max_articles [] = (r, tr) ->
  In (EvWrite filepath b) tr ->
  b <> []
  /\ exists sitemap_url year month,
       In (EvPrint (MsgFetchingArticles sitemap_url)) tr
       /\ month_key sitemap_url = Ok (year, month)
       /\ filepath = filepath_of env year month.
Proof.
  intros Hrun Hin.
  destruct (main_with_files env max_articles) as (r' & d & Heq & Hw & _).
  rewrite Hrun in Heq. injection Heq as _ <-. now apply Hw.
Qed.

(** X14.  [main] can be left by three exceptions only: [RetryError], when
    a sitemap function has used up its attempts; [OSError], from making
    the directory; and [IndexError], and then a monthly sitemap without a
    dash in its address was fetched in the run. *)
Theorem main_raises_only env max_articles e tr :
  main_with env max_articles [] = (Raise e, tr) ->
  e = RetryError \/ e = OSError
  \/ (e = IndexError
      /\ exists sitemap_url,
           In (EvPrint (MsgFetchingArticles sitemap_url)) tr
           /\ contains_char "-" sitemap_url = false).
Proof.
  intros Hrun.
  destruct (main_with_files env max_articles) as (r' & d & Heq & _ & Hr).
  rewrite Hrun in Heq. injection Heq as <- <-.
  destruct (Hr e eq_refl) as [H|[H|(H & u & Hu & Hk)]]; auto.
  right. right. split; [exact H|]. exists u. split; [exact Hu|].
  eapply month_key_raise_no_dash, Hk.
Qed.

Lemma files_are_named_by_month_witness :
  In (EvWrite (filepath_of (Demo.env_of Scenario.crawl) "2023" "9")
        [Scenario.third_record])
     (main (Demo.env_of Scenario.crawl) []).2
  /\ month_key Scenario.september = Ok ("2023", "9").
Proof.
  assert (Hsplit : (main (Demo.env_of Scenario.crawl) []).2
                   = firstn 23 (main (Demo.env_of Scenario.crawl) []).2
                     ++ EvWrite (filepath_of (Demo.env_of Scenario.crawl) "2023" "9")
                          [Scenario.third_record]
                     :: skipn 24 (main (Demo.env_of Scenario.crawl) []).2).
  { vm_compute. reflexivity. }
  assert (Hin : In (EvWrite (filepath_of (Demo.env_of Scenario.crawl) "2023" "9")
                      [Scenario.third_record])
                   (main (Demo.env_of Scenario.crawl) []).2).
  { rewrite Hsplit. apply in_or_app. right. now left. }
  split; [exact Hin|].
  destruct (files_are_named_by_month (Demo.env_of Scenario.crawl) 10000
              (main (Demo.env_of Scenario.crawl) []).1
              (main (Demo.env_of Scenario.crawl) []).2 _ _
              (surjective_pairing _) Hin) as [_ _].
  vm_compute. reflexivity.
Defined.

Lemma main_raises_only_witness :
  (main (Demo.env_of Scenario.crawl_latest) []).1 = Raise IndexError
  /\ exists sitemap_url,
       In (EvPrint (MsgFetchingArticles sitemap_url))
          (main (Demo.env_of Scenario.crawl_latest) []).2
       /\ contains_char "-" sitemap_url = false.
Proof.
  assert (Hr : (main (Demo.env_of Scenario.crawl_latest) []).1 = Raise IndexError)
    by (vm_compute; reflexivity).
  split; [exact Hr|].
  destruct (main_raises_only (Demo.env_of Scenario.crawl_latest) 10000 IndexError
              (main (Demo.env_of Scenario.crawl_latest) []).2)
    as [H|[H|[_ H]]].
  - rewrite <- Hr. apply surjective_pairing.
  - discriminate H.
  - discriminate H.
  - exact H.
Defined.

(** ** Requests that fail as requests *)

(** X15.  Where its request can only fail with a [RequestException],
    [get_article_urls] never raises: it makes its one request, takes no
    pause and returns a list, the locations of the answer when the status
    is not from 400 to 599, and the empty list when the request failed or
    the status is from 400 to 599. *)
Theorem request_failures_are_final env target tr :
  (forall e,
      requests_get env (tr ++ [EvPrint (MsgFetchingArticles target)]) target
      = RequestFails e -> is_RequestException e = true) ->
  exists locs d,
    get_article_urls env target tr = (Ok locs, tr ++ d)
    /\ requested d = [target] /\ pauses d = []
    /\ (forall status body,
          requests_get env (tr ++ [EvPrint (MsgFetchingArticles target)]) target
          = Response status body ->
          (400 <=? status) && (status <? 600) = false ->
          locs = map text (find_all "loc" (BeautifulSoup env body)))
    /\ ((forall status body,
           requests_get env (tr ++ [EvPrint (MsgFetchingArticles target)]) target
           = Response status body ->
           (400 <=? status) && (status <? 600) = true) ->
        locs = []).
Proof.
  intros Hfail.
  destruct (requests_get env (tr ++ [EvPrint (MsgFetchingArticles target)]) target)
    as [status body|e] eqn:Hget.
  - destruct ((400 <=? status) && (status <? 600)) eqn:Hs.
    + exists [], [EvPrint (MsgFetchingArticles target); EvGet target;
                  EvPrint (MsgFailedArticles target (HTTPError status))].
      split; [|repeat split].
      * apply retry_returns. rewrite get_article_urls_body_run. cbn zeta.
        now rewrite Hget, Hs, <- app_assoc.
      * intros status' body' [= <- <-] Hs'. congruence.
    + exists (map text (find_all "loc" (BeautifulSoup env body))),
        [EvPrint (MsgFetchingArticles target); EvGet target;
         EvPrint (MsgFoundArticles
                    (length (map text (find_all "loc" (BeautifulSoup env body)))))].
      split; [|repeat split].
      * apply retry_returns. rewrite get_article_urls_body_run. cbn zeta.
        now rewrite Hget, Hs, <- app_assoc.
      * intros status' body' [= <- <-] _. reflexivity.
      * intros Hall. specialize (Hall status body eq_refl). congruence.
  - exists [], [EvPrint (MsgFetchingArticles target); EvGet target;
                EvPrint (MsgFailedArticles target e)].
    split; [|repeat split].
    + apply retry_returns. rewrite get_article_urls_body_run. cbn zeta.
      now rewrite Hget, (Hfail e eq_refl), <- app_assoc.
    + discriminate.
Qed.

Lemma request_failures_are_final_witness :
  exists d,
    get_article_urls (Demo.env_of Scenario.offline) Scenario.august []
    = (Ok [], d)
    /\ requested d = [Scenario.august] /\ pauses d = [].
Proof.
  destruct (request_failures_are_final (Demo.env_of Scenario.offline)
              Scenario.august [])
    as (locs & d & H & Hr & Hp & _ & Hnone).
  - intros e [= <-]. reflexivity.
  - exists d. rewrite H. rewrite Hnone by discriminate. auto.
Defined.
